(** * Nexterm AI controller ([src/server/controllers/ai.js])

    A shallow embedding of the controller that backs the
    natural-language-to-shell-command assistant, and the properties of
    its provider registry, configuration validator, connectivity prober,
    model lister, command generator and response normaliser. *)

From Stdlib Require Import NArith ZArith List Bool Ascii String Lia.
From Stdlib Require QArith_base.
From Stdlib Require Import Sorting.Sorted Sorting.Permutation.
From Stdlib Require Import Numbers.DecimalString.
Import ListNotations.

Set Implicit Arguments.

(** ** JavaScript strings

    A JavaScript string is a sequence of UTF-16 code units.  The
    controller only inspects Basic Latin characters, white space and line
    terminators, so a code unit is a number and a string is a list of
    them. *)

Module JsString.

Definition codeunit := N.
Definition jsstring := list codeunit.

(** A literal of the source, given as a Rocq string of Basic Latin
    characters. *)
Definition str (s : string) : jsstring :=
  map N_of_ascii (list_ascii_of_string s).

Definition LF : codeunit := 10%N.
Definition CR : codeunit := 13%N.
Definition quote : codeunit := 34%N.
Definition slash : codeunit := 47%N.
Definition backtick : codeunit := 96%N.

Definition member (c : codeunit) (l : list codeunit) : bool := existsb (N.eqb c) l.

(** ECMAScript [LineTerminator]: LF, CR, LS, PS.  The regular expression
    atom [.] (without the [s] flag) matches every unit but these. *)
Definition is_line_terminator (c : codeunit) : bool :=
  member c [10; 13; 8232; 8233]%N.

(** ECMAScript [WhiteSpace] together with [LineTerminator]: the set that
    [String.prototype.trim] removes and that [\s] matches. *)
Definition is_whitespace (c : codeunit) : bool :=
  member c [9; 10; 11; 12; 13; 32; 160; 5760; 8232; 8233; 8239; 8287;
             12288; 65279]%N
  || ((8192 <=? c)%N && (c <=? 8202)%N).

(** The class [[\r\n]]. *)
Definition is_crlf (c : codeunit) : bool := member c [13; 10]%N.

Definition is_slash (c : codeunit) : bool := N.eqb c slash.

Fixpoint eqb (a b : jsstring) : bool :=
  match a, b with
  | [], [] => true
  | x :: a', y :: b' => N.eqb x y && eqb a' b'
  | _, _ => false
  end.

(** [s.startsWith(p)] *)
Fixpoint startsWith (p s : jsstring) : bool :=
  match p, s with
  | [], _ => true
  | x :: p', y :: s' => N.eqb x y && startsWith p' s'
  | _ :: _, [] => false
  end.

(** [s.includes(p)] *)
Fixpoint includes (p s : jsstring) : bool :=
  startsWith p s ||
  match s with
  | [] => false
  | _ :: s' => includes p s'
  end.

(** [s.toLowerCase()].  Basic Latin capitals are folded; the two code
    points outside Basic Latin whose lower-casing begins with a Basic
    Latin letter (U+0130 and the Kelvin sign U+212A) are folded as
    Unicode prescribes.  Every other unit is kept: its lower-casing is
    again outside Basic Latin, which is all the prefix tests of the
    controller (against ["user:"] and ["response:"]) can observe. *)
Definition lower_codeunit (c : codeunit) : list codeunit :=
  if ((65 <=? c)%N && (c <=? 90)%N)%bool then [(c + 32)%N]
  else if N.eqb c 304 then [105; 775]%N
  else if N.eqb c 8490 then [107%N]
  else [c].

Definition toLowerCase (s : jsstring) : jsstring := flat_map lower_codeunit s.

(** Canonicalisation of the [i] flag (non-unicode mode): a unit is
    compared through its upper-casing, except that a unit outside Basic
    Latin is never identified with a Basic Latin one.  For the Basic
    Latin pattern characters of the controller this is equality up to
    the case of Basic Latin letters. *)
Definition canonicalize (c : codeunit) : codeunit :=
  if ((97 <=? c)%N && (c <=? 122)%N)%bool then (c - 32)%N else c.

(** A literal pattern matched at the head of [s] under the [i] flag. *)
Fixpoint matches_ci (p s : jsstring) : bool :=
  match p, s with
  | [], _ => true
  | x :: p', y :: s' =>
      N.eqb (canonicalize x) (canonicalize y) && matches_ci p' s'
  | _ :: _, [] => false
  end.

Fixpoint dropWhile (f : codeunit -> bool) (s : jsstring) : jsstring :=
  match s with
  | [] => []
  | c :: r => if f c then dropWhile f r else s
  end.

(** Removal of the longest suffix whose units satisfy [f]: the effect of
    [s.replace(/[f]+$/, "")], whose leftmost match is the whole trailing
    run. *)
Fixpoint dropEndWhile (f : codeunit -> bool) (s : jsstring) : jsstring :=
  match s with
  | [] => []
  | c :: r =>
      match dropEndWhile f r with
      | [] => if f c then [] else [c]
      | r' => c :: r'
      end
  end.

(** [s.trim()] *)
Definition trim (s : jsstring) : jsstring :=
  dropEndWhile is_whitespace (dropWhile is_whitespace s).

(** [s.split("\n")]: always at least one segment. *)
Fixpoint split_lines (s : jsstring) : list jsstring :=
  match s with
  | [] => [[]]
  | c :: r =>
      if N.eqb c LF then [] :: split_lines r
      else match split_lines r with
           | h :: t => (c :: h) :: t
           | [] => [[c]]
           end
  end.

(** [segments.join("\n")]; also the reading of a multi-line literal. *)
Fixpoint join_lines (l : list jsstring) : jsstring :=
  match l with
  | [] => []
  | [x] => x
  | x :: rest => x ++ LF :: join_lines rest
  end.

(** [a] occurs in [b] as a contiguous piece. *)
Definition infix (a b : jsstring) : Prop := exists u v, b = u ++ a ++ v.

(** Truthiness of a string value: the empty string is falsy. *)
Definition nonempty (s : jsstring) : bool :=
  match s with [] => false | _ :: _ => true end.

(** Truthiness of a nullable string: [null], [undefined] and [""] are
    falsy. *)
Definition truthy (v : option jsstring) : bool :=
  match v with
  | Some s => nonempty s
  | None => false
  end.

(** [`${n}`] for a non-negative integer. *)
Definition of_N (n : N) : jsstring :=
  str (NilZero.string_of_uint (N.to_uint n)).

(** Global replacement by the empty string.  [mlen s] is the length of
    the match of the pattern anchored at the head of [s], if any;
    [skip] counts the units of the current match still to be dropped.
    The scan resumes after each match, as [replace] with the [g] flag
    does. *)
Fixpoint remove_all (mlen : jsstring -> option nat) (skip : nat)
    (s : jsstring) : jsstring :=
  match s with
  | [] => []
  | c :: r =>
      match skip with
      | S k => remove_all mlen k r
      | O =>
          match mlen s with
          | Some (S n) => remove_all mlen n r
          | _ => c :: remove_all mlen 0 r
          end
      end
  end.

End JsString.

(** ** Response normaliser ([parseAIResponse], lines 331-350) *)

Module Normalizer.
Import JsString.

Definition NO_COMMAND : jsstring := str "echo 'No command generated'".
Definition NOT_PROPERLY : jsstring :=
  str "echo 'Command not properly generated'".

Definition fence : jsstring := [backtick; backtick; backtick].

(** The pattern [```(?:bash|sh|shell)?\n?] anchored at the head of [s].
    The alternatives are tried in the order written and the optional
    line feed that follows always succeeds, so the first alternative
    that matches is kept. *)
Definition fence_lang_len (s : jsstring) : option nat :=
  if startsWith fence s then
    let r := skipn 3 s in
    let lang :=
      if startsWith (str "bash") r then 4
      else if startsWith (str "sh") r then 2
      else if startsWith (str "shell") r then 5
      else 0 in
    let nl := if startsWith [LF] (skipn lang r) then 1 else 0 in
    Some (3 + lang + nl)
  else None.

(** The pattern [```] anchored at the head of [s]. *)
Definition fence_len (s : jsstring) : option nat :=
  if startsWith fence s then Some 3 else None.

(** [response.replace(/```(?:bash|sh|shell)?\n?/g, "").replace(/```/g, "")] *)
Definition strip_fences (response : jsstring) : jsstring :=
  remove_all fence_len 0 (remove_all fence_lang_len 0 response).

(** [(.+?)(?:\n|$)] anchored at the head of [s]: the lazy group takes
    one unit that is not a line terminator, then stops as soon as a line
    feed or the end of the input follows, and otherwise takes one more. *)
Fixpoint lazy_capture (s : jsstring) : option jsstring :=
  match s with
  | [] => None
  | c :: r =>
      if is_line_terminator c then None
      else match r with
           | [] => Some [c]
           | d :: _ =>
               if N.eqb d LF then Some [c]
               else option_map (cons c) (lazy_capture r)
           end
  end.

(** [\s*(.+?)(?:\n|$)] anchored at the head of [s]: the greedy star
    first takes a white-space unit and gives it back when the rest of
    the pattern fails behind it. *)
Fixpoint after_label (s : jsstring) : option jsstring :=
  match s with
  | [] => lazy_capture s
  | c :: r =>
      if is_whitespace c then
        match after_label r with
        | Some m => Some m
        | None => lazy_capture s
        end
      else lazy_capture s
  end.

(** [/Response:\s*(.+?)(?:\n|$)/i] anchored at the head of [s]. *)
Definition response_at (s : jsstring) : option jsstring :=
  if matches_ci (str "Response:") s then after_label (skipn 9 s) else None.

(** [clean.match(/Response:\s*(.+?)(?:\n|$)/i)]: group 1 of the leftmost
    match. *)
Fixpoint responseMatch (s : jsstring) : option jsstring :=
  match response_at s with
  | Some m => Some m
  | None =>
      match s with
      | [] => None
      | _ :: r => responseMatch r
      end
  end.

(** [x.trim().replace(/[\r\n]+$/, "")] *)
Definition tidy (x : jsstring) : jsstring := dropEndWhile is_crlf (trim x).

Definition starts_user (l : jsstring) : bool :=
  startsWith (str "user:") (toLowerCase l).
Definition starts_response (l : jsstring) : bool :=
  startsWith (str "response:") (toLowerCase l).

(** [clean.split("\n").map(l => l.trim()).filter(Boolean)] *)
Definition lines_of (clean : jsstring) : list jsstring :=
  filter nonempty (map trim (split_lines clean)).

(** Lines 342-345: the first line that carries no role label, when more
    than one line remains. *)
Definition pick_line (lines : list jsstring) : option jsstring :=
  if Nat.ltb 1 (List.length lines) then
    match find (fun l => negb (starts_user l) && negb (starts_response l))
               lines with
    | Some cmd => if nonempty cmd then Some (tidy cmd) else None
    | None => None
    end
  else None.

Definition parseAIResponse (response : option jsstring) : jsstring :=
  match response with
  | None => NO_COMMAND
  | Some [] => NO_COMMAND
  | Some response =>
      let clean := strip_fences response in
      match responseMatch clean with
      | Some group1 => tidy group1
      | None =>
          if starts_user clean then NOT_PROPERLY
          else
            match pick_line (lines_of clean) with
            | Some cmd => cmd
            | None =>
                if starts_response clean then NOT_PROPERLY
                else
                  let whole := tidy clean in
                  if nonempty whole then whole else NO_COMMAND
            end
      end
  end.

(** The input classes of the clean-input property: a text holds a
    fence when it includes three backticks, and a role label when it
    includes ["user:"] or ["response:"] in any letter case. *)
Definition has_fence (x : jsstring) : bool := includes fence x.

Definition has_role_label (x : jsstring) : bool :=
  includes (str "user:") (toLowerCase x)
  || includes (str "response:") (toLowerCase x).

End Normalizer.

(** ** Completion records

    A JavaScript computation either completes normally with a value or
    throws; an [async] function resolves or rejects in the same way.  The
    thrown value is an [Error], of which the controller reads only the
    [message]. *)

Module Js.
Import JsString.

Inductive Completion (A : Type) : Type :=
| Normal (a : A)
| Throw (message : jsstring).

Arguments Normal {A} a.
Arguments Throw {A} message.

Definition bind {A B} (m : Completion A) (k : A -> Completion B)
  : Completion B :=
  match m with
  | Normal a => k a
  | Throw e => Throw e
  end.

(** [try { body } catch (error) { handler(error.message) }] *)
Definition try_catch {A} (body : Completion A) (handler : jsstring -> A)
  : Completion A :=
  match body with
  | Normal a => Normal a
  | Throw e => Normal (handler e)
  end.

(** The message of the [TypeError] raised by reading the property
    [reading] of [undefined] or [null]; V8's wording. *)
Definition type_error (of_what reading : string) : jsstring :=
  str "Cannot read properties of " ++ str of_what
  ++ str " (reading '" ++ str reading ++ str "')".

(** The message of the [ReferenceError] raised by reading an identifier
    that is declared nowhere; V8's wording. *)
Definition reference_error (identifier : string) : jsstring :=
  str identifier ++ str " is not defined".

(** [o.reading] where [o] may be missing ([of_what] says whether the
    missing value is [undefined] or [null]). *)
Definition access {A} (of_what reading : string) (o : option A)
  : Completion A :=
  match o with
  | Some a => Normal a
  | None => Throw (type_error of_what reading)
  end.

(** [`${v}`] for a nullable string. *)
Definition show (v : option jsstring) : jsstring :=
  match v with
  | Some s => s
  | None => str "null"
  end.

(** [a === b] on nullable strings. *)
Definition strict_eq (a b : option jsstring) : bool :=
  match a, b with
  | Some x, Some y => eqb x y
  | None, None => true
  | _, _ => false
  end.

(** [v === "literal"] *)
Definition is_str (v : option jsstring) (lit : string) : bool :=
  strict_eq v (Some (str lit)).

End Js.

Declare Scope js_scope.
Delimit Scope js_scope with js.
Notation "x <- m ;; k" := (Js.bind m (fun x => k))
  (at level 61, m at next level, right associativity) : js_scope.

(** ** The HTTP transport and the settings store (collaborators) *)

Module Http.
Import JsString Js.

Definition Headers := list (jsstring * jsstring).

Inductive Method := GET | POST.

Record ChatMessage := { role : jsstring; content : jsstring }.

Record OllamaOptions := {
  opt_temperature : QArith_base.Q;
  num_predict : N;
  opt_stop : list jsstring
}.

(** The two request bodies the controller serialises with
    [JSON.stringify]. *)
Inductive RequestBody :=
| ChatCompletions (model : option jsstring) (messages : list ChatMessage)
    (max_tokens : N) (temperature : QArith_base.Q) (stop : list jsstring)
| OllamaChat (model : option jsstring) (messages : list ChatMessage)
    (stream : bool) (options : OllamaOptions).

Record Request := {
  url : jsstring;
  method : option Method;
  headers : Headers;
  body : option RequestBody
}.

(** The parts of a decoded response body that the controller reads.
    Identifiers and names are strings when present, as the provider
    interfaces document them. *)
Record ModelEntry := { entry_id : option jsstring; entry_name : option jsstring }.
Record Reply := { reply_content : option jsstring }.
Record Choice := { choice_message : option Reply }.
Record ErrorBody := { error_message : option jsstring }.

Record Json := {
  data : option (list ModelEntry);
  models : option (list ModelEntry);
  choices : option (list Choice);
  message : option Reply;
  error : option ErrorBody
}.

Record Response := {
  ok : bool;
  status : N;
  json : Completion Json
}.

(** The transport: [await fetch(...)] resolves with a response or
    rejects. *)
Definition Fetch := Request -> Completion Response.

Definition AUTHORIZATION := str "Authorization".
Definition CONTENT_TYPE := str "Content-Type".
Definition APPLICATION_JSON := str "application/json".

(** [{ "Authorization": `Bearer ${key}`, "Content-Type": "application/json" }] *)
Definition bearer_headers (key : option jsstring) : Headers :=
  [(AUTHORIZATION, str "Bearer " ++ show key);
   (CONTENT_TYPE, APPLICATION_JSON)].

End Http.

Module Store.
Import JsString Js.

(** The persisted record ([AISettings]); a nullable column is an
    [option]. *)
Record Settings := {
  id : N;
  enabled : bool;
  provider : option jsstring;
  model : option jsstring;
  apiKey : option jsstring;
  apiUrl : option jsstring
}.

(** The single row of the table, once created. *)
Definition Store := option Settings.

(** [AISettings.findOne()] *)
Definition findOne (st : Store) : option Settings := st.

(** A field of an update request or of an update payload: [None] when
    the property is [undefined]. *)
Record Patch := {
  p_enabled : option bool;
  p_provider : option (option jsstring);
  p_model : option (option jsstring);
  p_apiUrl : option (option jsstring);
  p_apiKey : option (option jsstring)
}.

(** [const updatePayload = {}] *)
Definition empty_patch : Patch :=
  {| p_enabled := None; p_provider := None; p_model := None;
     p_apiUrl := None; p_apiKey := None |}.

Definition override {A} (new : option A) (old : A) : A :=
  match new with
  | Some v => v
  | None => old
  end.

(** Modelled from the spec: the settings store's [update(patch, selector)]
    (the [AISettings] model is not part of the controller), which
    overwrites the columns named in the patch on the rows the selector
    picks and leaves the others as they are. *)
Definition apply_patch (p : Patch) (s : Settings) : Settings :=
  {| id := id s;
     enabled := override (p_enabled p) (enabled s);
     provider := override (p_provider p) (provider s);
     model := override (p_model p) (model s);
     apiKey := override (p_apiKey p) (apiKey s);
     apiUrl := override (p_apiUrl p) (apiUrl s) |}.

Definition update (p : Patch) (where_id : N) (st : Store) : Store :=
  match st with
  | Some s => if N.eqb (id s) where_id then Some (apply_patch p s) else st
  | None => None
  end.

(** Modelled from the spec: the record created lazily on first access,
    with all fields unset and the assistant disabled. *)
Definition initial_settings : Settings :=
  {| id := 1; enabled := false; provider := None; model := None;
     apiKey := None; apiUrl := None |}.

(** Modelled from the spec: [getOrCreateSettings], the create-if-absent
    read of the store (its definition is not part of the controller). *)
Definition getOrCreateSettings (st : Store) : Settings * Store :=
  match st with
  | Some s => (s, st)
  | None => (initial_settings, Some initial_settings)
  end.

(** What a caller sees of the record. *)
Record Sanitized := {
  s_enabled : bool;
  s_provider : option jsstring;
  s_model : option jsstring;
  s_apiUrl : option jsstring;
  s_hasApiKey : bool
}.

(** Modelled from the spec: [sanitizeSettingsResponse], which replaces
    the credential by a presence flag (its definition is not part of the
    controller). *)
Definition sanitizeSettingsResponse (s : option Settings) : option Sanitized :=
  option_map
    (fun s => {| s_enabled := enabled s; s_provider := provider s;
                 s_model := model s; s_apiUrl := apiUrl s;
                 s_hasApiKey := truthy (apiKey s) |}) s.

(** The credential column never holds the empty string: the record is
    created without a credential and [updateAISettings] stores [null]
    for an empty one. *)
Definition credential_normalised (s : Settings) : Prop := apiKey s <> Some [].

End Store.

(** ** Settings operations (lines 72-93) *)

Module SettingsOps.
Import JsString Js Store.

(** [getAISettings] *)
Definition getAISettings (st : Store) : option Sanitized * Store :=
  let '(settings, st) := getOrCreateSettings st in
  (sanitizeSettingsResponse (Some settings), st).

(** The update payload built by lines 81-86 from the destructured
    request: a property is copied when it is not [undefined], and an
    empty [apiKey] is replaced by [null]. *)
Definition build_payload (updateData : Patch) : Patch :=
  {| p_enabled := p_enabled updateData;
     p_provider := p_provider updateData;
     p_model := p_model updateData;
     p_apiUrl := p_apiUrl updateData;
     p_apiKey :=
       match p_apiKey updateData with
       | Some apiKey => Some (if strict_eq apiKey (Some []) then None else apiKey)
       | None => None
       end |}.

(** [updateAISettings] *)
Definition updateAISettings (updateData : Patch) (st : Store)
  : option Sanitized * Store :=
  let '(settings, st) := getOrCreateSettings st in
  let updatePayload := build_payload updateData in
  let settingsId := id settings in
  let st := update updatePayload settingsId st in
  let updatedSettings := findOne st in
  (sanitizeSettingsResponse updatedSettings, st).

End SettingsOps.

(** ** Provider registry and configuration validator (lines 27-70) *)

Module Registry.
Import JsString Js Http Store.

Definition OPENAI_BASE_URL : jsstring := str "https://api.openai.com/v1".
Definition DEFAULT_OLLAMA_URL : jsstring := str "http://localhost:11434".

Record ProviderConfig := {
  baseUrl : option jsstring;
  config_headers : Headers;
  requiresApiKey : bool;
  requiresApiUrl : bool
}.

(** A structured error [{ code, message }]. *)
Record Failure := { code : N; failure_message : jsstring }.

Section Helpers.

(** [authHeaders] and [normalizeUrl] are used by the registry and
    defined outside the controller. *)
Variable authHeaders : option jsstring -> Headers.
Variable normalizeUrl : option jsstring -> option jsstring.

Definition getProviderConfig (settings : Settings) : option ProviderConfig :=
  let provider := provider settings in
  if is_str provider "openai" then
    Some {| baseUrl := Some OPENAI_BASE_URL;
            config_headers := authHeaders (apiKey settings);
            requiresApiKey := true;
            requiresApiUrl := false |}
  else if is_str provider "openai_compatible" then
    Some {| baseUrl := normalizeUrl (apiUrl settings);
            config_headers := authHeaders (apiKey settings);
            requiresApiKey := true;
            requiresApiUrl := true |}
  else if is_str provider "ollama" then
    Some {| baseUrl :=
              (if truthy (normalizeUrl (apiUrl settings))
               then normalizeUrl (apiUrl settings)
               else Some DEFAULT_OLLAMA_URL);
            config_headers := [(CONTENT_TYPE, APPLICATION_JSON)];
            requiresApiKey := false;
            requiresApiUrl := false |}
  else None.

End Helpers.

Definition validateProviderConfig (settings : Settings)
    (config : option ProviderConfig) : option Failure :=
  match config with
  | None => Some {| code := 400; failure_message := str "Unsupported provider" |}
  | Some config =>
      if requiresApiKey config && negb (truthy (apiKey settings)) then
        let name :=
          if is_str (provider settings) "openai" then str "OpenAI"
          else str "OpenAI Compatible" in
        Some {| code := 400;
                failure_message := name ++ str " API key not configured" |}
      else if requiresApiUrl config && negb (truthy (apiUrl settings)) then
        Some {| code := 400;
                failure_message := str "OpenAI Compatible API URL not configured" |}
      else None
  end.

(** The credential-missing error of the validator: code 400 with one
    of the two "API key not configured" messages. *)
Definition credential_missing (r : option Failure) : bool :=
  match r with
  | Some f =>
      N.eqb (code f) 400 &&
      (eqb (failure_message f) (str "OpenAI API key not configured")
       || eqb (failure_message f) (str "OpenAI Compatible API key not configured"))
  | None => false
  end.

End Registry.

(** ** Connectivity prober ([testAIConnection], lines 95-170) *)

Module Prober.
Import JsString Js Http Store.
Local Open Scope js_scope.

Inductive ProbeResult :=
| Success (message : jsstring)
| Failed (code : N) (message : jsstring).

Definition not_found (settings : Settings) (place : string) : jsstring :=
  str "Configured model " ++ [quote] ++ show (model settings) ++ [quote]
  ++ str " not found in " ++ str place.

(** Lines 103-121.  [None] stands for reaching the end of the branch
    without a [return]. *)
Definition probe_openai (fetch : Fetch) (settings : Settings)
  : Completion (option ProbeResult) :=
  if negb (truthy (apiKey settings)) then
    Normal (Some (Failed 400 (str "OpenAI API key not configured")))
  else
    response <- fetch {| url := str "https://api.openai.com/v1/models";
                         method := None;
                         headers := bearer_headers (apiKey settings);
                         body := None |} ;;
    if negb (ok response) then
      Normal (Some (Failed 500 (str "OpenAI API error: " ++ of_N (status response))))
    else
      data <- json response ;;
      entries <- access "undefined" "some" (Http.data data) ;;
      let modelExists :=
        existsb (fun m => strict_eq (entry_id m) (model settings)) entries in
      if negb modelExists then
        Normal (Some (Failed 400 (not_found settings "your OpenAI account")))
      else Normal None.

(** Lines 122-141. *)
Definition probe_ollama (fetch : Fetch) (settings : Settings)
  : Completion (option ProbeResult) :=
  let ollamaUrl :=
    if truthy (apiUrl settings) then show (apiUrl settings)
    else str "http://localhost:11434" in
  let ollamaUrl := dropEndWhile is_slash ollamaUrl in
  response <- fetch {| url := ollamaUrl ++ str "/api/tags";
                       method := Some GET;
                       headers := [(CONTENT_TYPE, APPLICATION_JSON)];
                       body := None |} ;;
  if negb (ok response) then
    Normal (Some (Failed 500 (str "Ollama API error: " ++ of_N (status response))))
  else
    data <- json response ;;
    let models :=
      match Http.models data with
      | Some l => map entry_name l
      | None => []
      end in
    if negb (existsb (strict_eq (model settings)) models) then
      Normal (Some (Failed 400 (not_found settings "Ollama")))
    else Normal None.

(** Lines 142-163. *)
Definition probe_compatible (fetch : Fetch) (settings : Settings)
  : Completion (option ProbeResult) :=
  if negb (truthy (apiUrl settings)) then
    Normal (Some (Failed 400 (str "OpenAI Compatible API URL not configured")))
  else if negb (truthy (apiKey settings)) then
    Normal (Some (Failed 400 (str "OpenAI Compatible API key not configured")))
  else
    response <- fetch {| url := show (apiUrl settings) ++ str "/models";
                         method := None;
                         headers := bearer_headers (apiKey settings);
                         body := None |} ;;
    if negb (ok response) then
      Normal (Some (Failed 500 (str "OpenAI API error: " ++ of_N (status response))))
    else
      data <- json response ;;
      entries <- access "undefined" "some" (Http.data data) ;;
      let modelExists :=
        existsb (fun m => strict_eq (entry_id m) (model settings)) entries in
      if negb modelExists then
        Normal (Some (Failed 400 (not_found settings "OpenAI Compatible API")))
      else Normal None.

(** The body of the [try] block, lines 103-165. *)
Definition probe (fetch : Fetch) (settings : Settings)
  : Completion ProbeResult :=
  early <-
    (if is_str (provider settings) "openai" then probe_openai fetch settings
     else if is_str (provider settings) "ollama" then probe_ollama fetch settings
     else if is_str (provider settings) "openai_compatible"
          then probe_compatible fetch settings
     else Normal None) ;;
  match early with
  | Some result => Normal result
  | None => Normal (Success (str "Connection test successful"))
  end.

Definition testAIConnection (fetch : Fetch) (st : Store)
  : Completion ProbeResult :=
  match findOne st with
  | None => Normal (Failed 400 (str "AI is not enabled"))
  | Some settings =>
      if negb (enabled settings) then
        Normal (Failed 400 (str "AI is not enabled"))
      else if negb (truthy (provider settings)) then
        Normal (Failed 400 (str "No AI provider configured"))
      else if negb (truthy (model settings)) then
        Normal (Failed 400 (str "No AI model configured"))
      else
        try_catch (probe fetch settings)
          (fun error_message =>
             Failed 500 (str "Connection test failed: " ++ error_message))
  end.

(** *** Vocabulary of the prober's properties *)

(** The provider is one of the three kinds and the settings hold what
    the probe of that kind checks before it calls the provider. *)
Definition ready (settings : Settings) : bool :=
  if is_str (provider settings) "openai" then truthy (apiKey settings)
  else if is_str (provider settings) "ollama" then true
  else if is_str (provider settings) "openai_compatible"
       then truthy (apiUrl settings) && truthy (apiKey settings)
  else false.

(** The listing call of each kind: the models endpoint of the hosted
    and compatible providers, the tags endpoint of the local one. *)
Definition listing_request (settings : Settings) : Request :=
  if is_str (provider settings) "openai" then
    {| url := str "https://api.openai.com/v1/models"; method := None;
       headers := bearer_headers (apiKey settings); body := None |}
  else if is_str (provider settings) "ollama" then
    {| url := dropEndWhile is_slash
                (if truthy (apiUrl settings) then show (apiUrl settings)
                 else str "http://localhost:11434") ++ str "/api/tags";
       method := Some GET;
       headers := [(CONTENT_TYPE, APPLICATION_JSON)]; body := None |}
  else
    {| url := show (apiUrl settings) ++ str "/models"; method := None;
       headers := bearer_headers (apiKey settings); body := None |}.

(** The identifiers a decoded listing reports: the [id] of the entries
    of [data] for the hosted and compatible kinds, the [name] of the
    entries of [models] (none when the property is missing) for the
    local kind. *)
Definition listed (settings : Settings) (body : Json)
  : option (list (option jsstring)) :=
  if is_str (provider settings) "ollama" then
    Some (match Http.models body with
          | Some l => map entry_name l
          | None => []
          end)
  else option_map (map entry_id) (Http.data body).

End Prober.

(** ** Model lister ([fetchModelsForProvider], lines 172-250) *)

Module Lister.
Import JsString Js Http Store Registry.
Local Open Scope js_scope.

(** The three shapes the function returns: [{ models }],
    [{ code, message }] and [{ error: { code, message } }]. *)
Inductive ListResult :=
| Models (models : list jsstring)
| ListError (code : N) (message : jsstring)
| WrappedError (code : N) (message : jsstring).

(** Comparison of strings by code units, the order of
    [Array.prototype.sort] without a comparator. *)
Fixpoint leb (a b : jsstring) : bool :=
  match a, b with
  | [], _ => true
  | _ :: _, [] => false
  | x :: a', y :: b' =>
      if (x <? y)%N then true
      else if (y <? x)%N then false
      else leb a' b'
  end.

Fixpoint insert (x : jsstring) (l : list jsstring) : list jsstring :=
  match l with
  | [] => [x]
  | y :: l' => if leb x y then x :: l else y :: insert x l'
  end.

(** [ids.sort()]: the ordered rearrangement of the identifiers (equal
    strings are indistinguishable, so the engine's algorithm does not
    show). *)
Definition sort (l : list jsstring) : list jsstring :=
  fold_right insert [] l.

(** The predicate of the [filter] of lines 207-215. *)
Definition is_chat_model (id : jsstring) : bool :=
  includes (str "gpt") id &&
  negb (includes (str "instruct") id) &&
  negb (includes (str "edit") id) &&
  negb (includes (str "embedding") id) &&
  negb (includes (str "whisper") id) &&
  negb (includes (str "tts") id) &&
  negb (includes (str "dall-e") id).

(** [data.data.filter(...).map(model => model.id)]: the identifiers of
    the entries kept.  The predicate calls [model.id.includes], which
    throws on an entry without identifier. *)
Fixpoint chat_model_ids (entries : list ModelEntry)
  : Completion (list jsstring) :=
  match entries with
  | [] => Normal []
  | m :: rest =>
      id <- access "undefined" "includes" (entry_id m) ;;
      ids <- chat_model_ids rest ;;
      Normal (if is_chat_model id then id :: ids else ids)
  end.

(** [data.models ? data.models.map(model => model.name).filter(name => name) : []] *)
Definition model_names (data : Json) : list jsstring :=
  match Http.models data with
  | Some l =>
      flat_map (fun m => if truthy (entry_name m) then [show (entry_name m)] else [])
               l
  | None => []
  end.

(** Lines 176-190. *)
Definition list_ollama (fetch : Fetch) (config : option ProviderConfig)
  : Completion ListResult :=
  try_catch
    (config <- access "null" "baseUrl" config ;;
     response <- fetch {| url := show (baseUrl config) ++ str "/api/tags";
                          method := Some GET;
                          headers := config_headers config;
                          body := None |} ;;
     if negb (ok response) then
       Normal (WrappedError 500
                 (str "Ollama API error: " ++ of_N (status response)))
     else
       data <- json response ;;
       Normal (Models (model_names data)))
    (fun _ => Models []).

(** Lines 191-223. *)
Definition list_openai (fetch : Fetch) (settings : Settings)
  : Completion ListResult :=
  if negb (truthy (apiKey settings)) then
    Normal (ListError 400 (str "OpenAI API key not configured"))
  else
    try_catch
      (response <- fetch {| url := str "https://api.openai.com/v1/models";
                            method := None;
                            headers := bearer_headers (apiKey settings);
                            body := None |} ;;
       if negb (ok response) then
         Normal (ListError 500 (str "Failed to fetch models from OpenAI"))
       else
         data <- json response ;;
         entries <- access "undefined" "filter" (Http.data data) ;;
         ids <- chat_model_ids entries ;;
         Normal (Models (sort ids)))
      (fun _ => Models []).

(** Lines 224-246. *)
Definition list_compatible (fetch : Fetch) (settings : Settings)
  : Completion ListResult :=
  if negb (truthy (apiUrl settings)) then
    Normal (ListError 400 (str "OpenAI Compatible API URL not configured"))
  else if negb (truthy (apiKey settings)) then
    Normal (ListError 400 (str "OpenAI Compatible API key not configured"))
  else
    try_catch
      (response <- fetch {| url := show (apiUrl settings);
                            method := None;
                            headers := bearer_headers (apiKey settings);
                            body := None |} ;;
       if negb (ok response) then
         Normal (ListError 500
                   (str "Failed to fetch models from OpenAI Compatible API"))
       else
         data <- json response ;;
         Normal (Models (model_names data)))
      (fun _ => Models []).

(** The source text closes the first [try] inside the [if] of the
    ollama branch; the function is read as the [if / else if] chain its
    branches spell out, each branch with its own [try / catch]. *)
Definition fetchModelsForProvider (fetch : Fetch) (settings : Settings)
    (config : option ProviderConfig) : Completion ListResult :=
  if is_str (provider settings) "ollama" then list_ollama fetch config
  else if is_str (provider settings) "openai" then list_openai fetch settings
  else if is_str (provider settings) "openai_compatible"
       then list_compatible fetch settings
  else Normal (ListError 400 (str "Unsupported provider")).

(** *** Vocabulary of the lister's properties *)

(** The listing call of each kind, when the function gets to it. *)
Definition listing_request (settings : Settings)
    (config : option ProviderConfig) : option Request :=
  if is_str (provider settings) "ollama" then
    option_map
      (fun config =>
         {| url := show (baseUrl config) ++ str "/api/tags";
            method := Some GET; headers := config_headers config;
            body := None |}) config
  else if is_str (provider settings) "openai" then
    if truthy (apiKey settings) then
      Some {| url := str "https://api.openai.com/v1/models"; method := None;
              headers := bearer_headers (apiKey settings); body := None |}
    else None
  else if is_str (provider settings) "openai_compatible" then
    if truthy (apiUrl settings) && truthy (apiKey settings) then
      Some {| url := show (apiUrl settings); method := None;
              headers := bearer_headers (apiKey settings); body := None |}
    else None
  else None.

(** A structured error with code 500, in either of its two shapes. *)
Definition is_error_500 (r : ListResult) : bool :=
  match r with
  | Models _ => false
  | ListError code _ | WrappedError code _ => N.eqb code 500
  end.

(** The substrings that mark a model of the hosted provider as not a
    chat model. *)
Definition NON_CHAT_MARKERS : list jsstring :=
  [str "embedding"; str "whisper"; str "tts"; str "dall-e"; str "instruct";
   str "edit"].

Definition le (a b : jsstring) : Prop := leb a b = true.

End Lister.

(** ** Command generator (lines 252-329) *)

Module Generator.
Import JsString Js Http Store Registry Normalizer.

(** A computation together with the requests it has sent, oldest
    first. *)
Definition Traced (A : Type) : Type := list Request * Completion A.

Definition ret {A} (a : A) : Traced A := ([], Normal a).
Definition raise {A} (e : jsstring) : Traced A := ([], Throw e).
Definition lift {A} (m : Completion A) : Traced A := ([], m).

Definition tbind {A B} (m : Traced A) (k : A -> Traced B) : Traced B :=
  match m with
  | (sent, Normal a) => let '(sent', r) := k a in (sent ++ sent', r)
  | (sent, Throw e) => (sent, Throw e)
  end.

(** [await fetch(url, init)] *)
Definition send (fetch : Fetch) (request : Request) : Traced Response :=
  ([request], fetch request).

Definition quoted (s : string) : jsstring := [quote] ++ str s ++ [quote].

(** The template literal of lines 7-25. *)
Definition DEFAULT_SYSTEM_PROMPT : jsstring :=
  join_lines
    [ str "You are a Linux command generator assistant. Your job is to generate appropriate Linux/Unix shell commands based on user requests.";
      [];
      str "Rules:";
      str "1. Return ONLY the command(s), no explanations or markdown formatting";
      str "2. If multiple commands are needed, separate them with && or ;";
      str "3. Prefer safe, commonly available commands";
      str "4. If the request is unclear, provide the most likely intended command";
      str "5. For dangerous operations, use safer alternatives when possible";
      str "6. Always assume the user wants commands for a modern Linux system";
      [];
      str "Examples:";
      str "User: " ++ quoted "list all files";
      str "Response: ls -la";
      [];
      str "User: " ++ quoted "find large files";
      str "Response: find . -type f -size +100M -exec ls -lh {} + | sort -k5 -hr";
      [];
      str "User: " ++ quoted "check memory usage";
      str "Response: free -h && top -o %MEM -n 1" ].

Inductive GenResult :=
| Command (command : jsstring)
| GenError (code : N) (message : jsstring).

(** The identifier [systemPrompt] of lines 270-271.  The file declares
    [SYSTEM_PROMPT] and no [systemPrompt], so reading it throws a
    [ReferenceError]. *)
Definition systemPrompt : Completion jsstring :=
  Throw (reference_error "systemPrompt").

Section Environment.

(** [process.env.AI_SYSTEM_PROMPT] *)
Variable AI_SYSTEM_PROMPT : option jsstring.

(** [config], which both request builders read [headers] from, is
    bound outside them. *)
Variable config : ProviderConfig.

Variable fetch : Fetch.

Definition SYSTEM_PROMPT : jsstring :=
  if truthy AI_SYSTEM_PROMPT then show AI_SYSTEM_PROMPT
  else DEFAULT_SYSTEM_PROMPT.

Definition turns (prompt : jsstring) : list ChatMessage :=
  [ {| role := str "system"; content := SYSTEM_PROMPT |};
    {| role := str "user"; content := prompt |} ].

(** [data.choices[0]?.message?.content] *)
Definition first_choice_content (choices : list Choice) : option jsstring :=
  match choices with
  | [] => None
  | c :: _ =>
      match choice_message c with
      | Some m => reply_content m
      | None => None
      end
  end.

(** [error.error?.message || response.status], where [error] is the
    decoded body or [{}] when decoding fails. *)
Definition api_error_detail (response : Response) : jsstring :=
  let error :=
    match json response with
    | Normal body => Http.error body
    | Throw _ => None
    end in
  let message :=
    match error with
    | Some e => error_message e
    | None => None
    end in
  if truthy message then show message else of_N (status response).

(** Lines 276-301. *)
Definition generateOpenAICommand (prompt : jsstring) (settings : Settings)
  : Traced jsstring :=
  if negb (truthy (apiKey settings)) then
    raise (str "OpenAI API key not configured")
  else
    tbind
      (send fetch
         {| url := str "https://api.openai.com/v1/chat/completions";
            method := Some POST;
            headers := config_headers config;
            body := Some (ChatCompletions (model settings) (turns prompt) 150
                            (QArith_base.Qmake 3%Z 10%positive) [[LF; LF]]) |})
      (fun response =>
         if negb (ok response) then
           raise (str "API error: " ++ api_error_detail response)
         else
           tbind (lift (json response)) (fun data =>
           tbind (lift (access "undefined" "0" (choices data))) (fun choices =>
           ret (parseAIResponse
                  (option_map trim (first_choice_content choices)))))).

(** Lines 303-329. *)
Definition generateOllamaCommand (prompt : jsstring) (settings : Settings)
  : Traced jsstring :=
  let ollamaUrl :=
    if truthy (apiUrl settings) then show (apiUrl settings)
    else str "http://localhost:11434" in
  let ollamaUrl := dropEndWhile is_slash ollamaUrl in
  tbind
    (send fetch
       {| url := ollamaUrl ++ str "/api/chat";
          method := Some POST;
          headers := config_headers config;
          body := Some (OllamaChat (model settings) (turns prompt) false
                          {| opt_temperature := QArith_base.Qmake 3%Z 10%positive;
                             num_predict := 150;
                             opt_stop := [[LF; LF]] |}) |})
    (fun response =>
       if negb (ok response) then
         raise (str "Ollama API error: " ++ of_N (status response))
       else
         tbind (lift (json response)) (fun data =>
         ret (parseAIResponse
                (option_map trim
                   (match Http.message data with
                    | Some m => reply_content m
                    | None => None
                    end))))).

(** Lines 258-267: the first computation of [command].  [inr] is the
    early [return] of the unsupported-provider error. *)
Definition first_dispatch (prompt : jsstring) (settings : Settings)
  : Traced (jsstring + GenResult) :=
  if is_str (provider settings) "openai" then
    tbind (generateOpenAICommand prompt settings) (fun c => ret (inl c))
  else if is_str (provider settings) "openai_compatible" then
    tbind (generateOllamaCommand prompt settings) (fun c => ret (inl c))
  else if is_str (provider settings) "ollama" then
    tbind (generateOllamaCommand prompt settings) (fun c => ret (inl c))
  else ret (inr (GenError 400 (str "Unsupported AI provider"))).

(** Lines 269-271: the second computation of [command].  Either call
    evaluates its arguments first, and the third one, [systemPrompt], is
    declared nowhere: reading it throws before the callee runs. *)
Definition second_dispatch (prompt : jsstring) (settings : Settings)
  : Traced jsstring :=
  if is_str (provider settings) "ollama"
  then tbind (lift systemPrompt)
         (fun _ => generateOllamaCommand prompt settings)
  else tbind (lift systemPrompt)
         (fun _ => generateOpenAICommand prompt settings).

(** [generateCommand].  The source computes [command] twice, one
    statement after the other; the embedding runs them in that order.
    The [return] of line 273 follows the second. *)
Definition generateCommand (prompt : jsstring) (st : Store)
  : Traced GenResult :=
  match findOne st with
  | None => ret (GenError 400 (str "AI is not enabled"))
  | Some settings =>
      if negb (enabled settings) then
        ret (GenError 400 (str "AI is not enabled"))
      else if negb (truthy (provider settings)) || negb (truthy (model settings))
      then ret (GenError 400 (str "AI not properly configured"))
      else
        tbind (first_dispatch prompt settings) (fun first =>
          match first with
          | inr early => ret early
          | inl _ =>
              tbind (second_dispatch prompt settings) (fun command =>
              ret (Command command))
          end)
  end.

End Environment.

End Generator.

(** ** Vocabulary of further properties *)

Module Vocabulary.
Import JsString Js Http Store Registry Generator.

(** The message turns of a request body. *)
Definition body_turns (b : RequestBody) : list ChatMessage :=
  match b with
  | ChatCompletions _ messages _ _ _ => messages
  | OllamaChat _ messages _ _ => messages
  end.

(** Temperature, length limit and stop sequences of a request body,
    wherever the shape keeps them. *)
Definition body_sampling (b : RequestBody)
  : QArith_base.Q * N * list jsstring :=
  match b with
  | ChatCompletions _ _ max_tokens temperature stop =>
      (temperature, max_tokens, stop)
  | OllamaChat _ _ _ options =>
      (opt_temperature options, num_predict options, opt_stop options)
  end.

(** The request of [generateOpenAICommand]. *)
Definition hosted_request (AI_SYSTEM_PROMPT : option jsstring)
    (config : ProviderConfig) (prompt : jsstring) (settings : Settings)
  : Request :=
  {| url := str "https://api.openai.com/v1/chat/completions";
     method := Some POST;
     headers := config_headers config;
     body := Some (ChatCompletions (model settings)
                     (turns AI_SYSTEM_PROMPT prompt) 150
                     (QArith_base.Qmake 3 10) [[LF; LF]]) |}.

(** The request of [generateOllamaCommand]. *)
Definition local_request (AI_SYSTEM_PROMPT : option jsstring)
    (config : ProviderConfig) (prompt : jsstring) (settings : Settings)
  : Request :=
  {| url := dropEndWhile is_slash
              (if truthy (apiUrl settings) then show (apiUrl settings)
               else str "http://localhost:11434") ++ str "/api/chat";
     method := Some POST;
     headers := config_headers config;
     body := Some (OllamaChat (model settings)
                     (turns AI_SYSTEM_PROMPT prompt) false
                     {| opt_temperature := QArith_base.Qmake 3 10;
                        num_predict := 150;
                        opt_stop := [[LF; LF]] |}) |}.

(** The request the generator sends first: the hosted one for the
    hosted kind, the local one for the compatible and the local kinds. *)
Definition first_request (AI_SYSTEM_PROMPT : option jsstring)
    (config : ProviderConfig) (prompt : jsstring) (settings : Settings)
  : Request :=
  if is_str (provider settings) "openai"
  then hosted_request AI_SYSTEM_PROMPT config prompt settings
  else local_request AI_SYSTEM_PROMPT config prompt settings.

(** What a request of the generator is expected to carry: the method,
    the headers of the contract, the two turns and the sampling
    settings. *)
Definition well_formed_request (AI_SYSTEM_PROMPT : option jsstring)
    (config : ProviderConfig) (prompt : jsstring) (request : Request) : Prop :=
  method request = Some POST
  /\ headers request = config_headers config
  /\ exists b,
       body request = Some b
       /\ body_turns b
          = [ {| role := str "system";
                 content := SYSTEM_PROMPT AI_SYSTEM_PROMPT |};
              {| role := str "user"; content := prompt |} ]
       /\ body_sampling b = (QArith_base.Qmake 3 10, 150%N, [[LF; LF]]).

(** The provider is none of the three kinds. *)
Definition unrecognised (settings : Settings) : bool :=
  negb (is_str (provider settings) "openai")
  && negb (is_str (provider settings) "openai_compatible")
  && negb (is_str (provider settings) "ollama").

Definition all_whitespace (w : jsstring) : Prop :=
  Forall (fun c => is_whitespace c = true) w.

Definition no_line_terminator (c : jsstring) : Prop :=
  Forall (fun u => is_line_terminator u = false) c.

End Vocabulary.

(** ** Sample configurations and transports *)

Module Samples.
Import JsString Js Http Store Registry.

Definition hosted : Settings :=
  {| id := 1; enabled := true; provider := Some (str "openai");
     model := Some (str "gpt-9"); apiKey := Some (str "sk-test");
     apiUrl := None |}.

Definition compatible : Settings :=
  {| id := 1; enabled := true; provider := Some (str "openai_compatible");
     model := Some (str "mistral"); apiKey := Some (str "secret");
     apiUrl := Some (str "http://llm.example/v1") |}.

Definition entry (id : string) : ModelEntry :=
  {| entry_id := Some (str id); entry_name := None |}.

Definition listing (entries : list ModelEntry) : Json :=
  {| data := Some entries; models := None; choices := None;
     message := None; error := None |}.

Definition catalogue : Json := listing [entry "gpt-4"].

Definition mixed_catalogue : Json :=
  listing [entry "gpt-4o"; entry "gpt-3.5-turbo-instruct"; entry "whisper-1";
           entry "gpt-4"; entry "gpt-4o-mini-tts"; entry "dall-e-3";
           entry "text-embedding-3-small"; entry "gpt-3.5-turbo"].

(** A transport that answers every request with the given body. *)
Definition serving (body : Json) : Fetch :=
  fun _ => Normal {| ok := true; status := 200; json := Normal body |}.

Definition answering : Fetch := serving catalogue.

(** A transport that cannot connect. *)
Definition refusing : Fetch := fun _ => Throw (str "ECONNREFUSED").

(** A transport that answers every request with status 503. *)
Definition unavailable : Fetch :=
  fun _ => Normal {| ok := false; status := 503;
                     json := Throw (str "Unexpected end of JSON input") |}.

Definition reply (text : string) : Reply :=
  {| reply_content := Some (str text) |}.

(** A completion in both response shapes: a first choice for the
    hosted shape, a message for the local one. *)
Definition completion (text : string) : Json :=
  {| data := None; models := None;
     choices := Some [ {| choice_message := Some (reply text) |} ];
     message := Some (reply text); error := None |}.

(** A transport that answers every request with status 401 and an
    error body. *)
Definition unauthorized : Fetch :=
  fun _ => Normal {| ok := false; status := 401;
                     json := Normal {| data := None; models := None;
                                       choices := None; message := None;
                                       error := Some {| error_message :=
                                                 Some (str "Incorrect API key") |} |} |}.

Definition local : Settings :=
  {| id := 1; enabled := true; provider := Some (str "ollama");
     model := Some (str "llama3"); apiKey := None;
     apiUrl := Some (str "http://box:11434//") |}.

Definition plain_config : ProviderConfig :=
  {| baseUrl := Some (str "http://llm.example/v1");
     config_headers := [(CONTENT_TYPE, APPLICATION_JSON)];
     requiresApiKey := true; requiresApiUrl := true |}.

End Samples.

(** * Properties *)

Unset Implicit Arguments.

(** ** Facts about strings *)

Module JsStringFacts.
Import JsString.

Lemma eqb_eq (a b : jsstring) : eqb a b = true <-> a = b.
Proof.
  revert b; induction a as [|x a IH]; intros [|y b]; simpl;
    try (split; congruence).
  rewrite andb_true_iff, N.eqb_eq, IH. split.
  - intros [-> ->]; reflexivity.
  - intros H; injection H; auto.
Qed.

Lemma eqb_refl (a : jsstring) : eqb a a = true.
Proof. apply eqb_eq; reflexivity. Qed.

Lemma startsWith_app (p s t : jsstring) :
  startsWith p s = true -> startsWith p (s ++ t) = true.
Proof.
  revert s; induction p as [|x p IH]; intros [|y s]; simpl; auto.
  - discriminate.
  - rewrite !andb_true_iff. intros [E H]; auto.
Qed.

Lemma startsWith_includes (p s : jsstring) :
  startsWith p s = true -> includes p s = true.
Proof. destruct s; simpl; intros ->; reflexivity. Qed.

Lemma includes_app_r (p u s : jsstring) :
  includes p s = true -> includes p (u ++ s) = true.
Proof.
  intros H; induction u as [|c u IH]; simpl; auto.
  rewrite IH. apply orb_true_r.
Qed.

Lemma includes_app_l (p s v : jsstring) :
  includes p s = true -> includes p (s ++ v) = true.
Proof.
  induction s as [|c s IH]; simpl.
  - rewrite orb_false_r. intros H.
    destruct p; [destruct v; reflexivity | discriminate].
  - rewrite !orb_true_iff. intros [H|H].
    + left. apply (startsWith_app p (c :: s) v H).
    + right; auto.
Qed.

Lemma infix_refl (a : jsstring) : infix a a.
Proof. exists [], []. simpl. now rewrite app_nil_r. Qed.

Lemma infix_trans (a b c : jsstring) : infix a b -> infix b c -> infix a c.
Proof.
  intros (u & v & ->) (u' & v' & ->).
  exists (u' ++ u), (v ++ v'). now rewrite !app_assoc.
Qed.

Lemma includes_infix (p a b : jsstring) :
  infix a b -> includes p b = false -> includes p a = false.
Proof.
  intros (u & v & ->) H.
  destruct (includes p a) eqn:E; auto.
  rewrite includes_app_r in H; [discriminate|].
  now apply includes_app_l.
Qed.

Lemma toLowerCase_app (a b : jsstring) :
  toLowerCase (a ++ b) = toLowerCase a ++ toLowerCase b.
Proof. apply flat_map_app. Qed.

Lemma toLowerCase_infix (a b : jsstring) :
  infix a b -> infix (toLowerCase a) (toLowerCase b).
Proof.
  intros (u & v & ->). exists (toLowerCase u), (toLowerCase v).
  now rewrite !toLowerCase_app.
Qed.

Lemma dropWhile_suffix f (s : jsstring) : exists u, s = u ++ dropWhile f s.
Proof.
  induction s as [|c s (u & IH)]; simpl.
  - now exists [].
  - destruct (f c).
    + exists (c :: u). simpl. now rewrite <- IH.
    + now exists [].
Qed.

Lemma dropWhile_head f (s : jsstring) c r :
  dropWhile f s = c :: r -> f c = false.
Proof.
  induction s as [|x s IH]; simpl; [discriminate|].
  destruct (f x) eqn:E; auto.
  intros H; injection H as -> _; exact E.
Qed.

Lemma dropWhile_keep f c (r : jsstring) :
  f c = false -> dropWhile f (c :: r) = c :: r.
Proof. simpl; intros ->; reflexivity. Qed.

Lemma dropEndWhile_prefix f (s : jsstring) : exists v, s = dropEndWhile f s ++ v.
Proof.
  induction s as [|c s (v & IH)]; simpl.
  - now exists [].
  - destruct (dropEndWhile f s) as [|x r] eqn:E.
    + destruct (f c).
      * exists (c :: s); reflexivity.
      * exists s; reflexivity.
    + exists v. simpl in *. now rewrite <- IH.
Qed.

Lemma dropEndWhile_keep f c (r : jsstring) :
  f c = false -> exists r', dropEndWhile f (c :: r) = c :: r'.
Proof.
  intros H; simpl. destruct (dropEndWhile f r).
  - rewrite H. now exists [].
  - eexists; reflexivity.
Qed.

(** The result of [dropEndWhile f] has no trailing unit of a smaller
    class left to drop. *)
Lemma dropEndWhile_absorb (f g : codeunit -> bool) (s : jsstring) :
  (forall c, g c = true -> f c = true) ->
  dropEndWhile g (dropEndWhile f s) = dropEndWhile f s.
Proof.
  intros sub; induction s as [|c s IH]; simpl; auto.
  destruct (dropEndWhile f s) as [|x r] eqn:E.
  - destruct (f c) eqn:Fc; simpl; auto.
    destruct (g c) eqn:Gc; auto.
    apply sub in Gc; congruence.
  - change (dropEndWhile g (c :: x :: r)) with
      (match dropEndWhile g (x :: r) with
       | [] => if g c then [] else [c]
       | r' => c :: r'
       end).
    rewrite IH. reflexivity.
Qed.

Lemma dropEndWhile_fixed_tail f (a b : jsstring) :
  dropEndWhile f (a ++ b) = a ++ b -> b <> [] ->
  exists c, In c b /\ f c = false.
Proof.
  induction a as [|x a IH]; simpl.
  - induction b as [|c b IHb]; [congruence|]. simpl. intros H _.
    destruct (dropEndWhile f b) as [|y r] eqn:E.
    + destruct (f c) eqn:Fc; [discriminate|].
      exists c; split; [now left | exact Fc].
    + injection H as H. destruct IHb as (d & Hd & Fd); try congruence.
      exists d; split; [now right | exact Fd].
  - intros H Hb. destruct (dropEndWhile f (a ++ b)) as [|y r] eqn:E.
    + destruct (f x); injection H as H || discriminate H.
      destruct a; destruct b; simpl in *; congruence.
    + injection H as H. apply IH; auto.
Qed.

Lemma In_dropWhile f (s : jsstring) c : In c (dropWhile f s) -> In c s.
Proof.
  destruct (dropWhile_suffix f s) as (u & E). intros H.
  rewrite E. apply in_or_app; now right.
Qed.

Lemma In_dropEndWhile f (s : jsstring) c : In c (dropEndWhile f s) -> In c s.
Proof.
  destruct (dropEndWhile_prefix f s) as (v & E). intros H.
  rewrite E. apply in_or_app; now left.
Qed.

Lemma crlf_whitespace c : is_crlf c = true -> is_whitespace c = true.
Proof.
  unfold is_crlf, member; simpl.
  rewrite orb_false_r, orb_true_iff, !N.eqb_eq.
  intros [-> | ->]; reflexivity.
Qed.

Lemma trim_head (s : jsstring) c r : trim s = c :: r -> is_whitespace c = false.
Proof.
  unfold trim. destruct (dropWhile is_whitespace s) as [|x t] eqn:E.
  - discriminate.
  - pose proof (dropWhile_head _ _ _ _ E) as Hx.
    destruct (dropEndWhile_keep _ _ t Hx) as (r' & ->).
    intros H; injection H as <- _; exact Hx.
Qed.

Lemma trim_idem (s : jsstring) : trim (trim s) = trim s.
Proof.
  destruct (trim s) as [|c r] eqn:E; [reflexivity|].
  pose proof (trim_head _ _ _ E) as Hc.
  unfold trim at 1. rewrite (dropWhile_keep _ _ r Hc).
  rewrite <- E. unfold trim. now apply dropEndWhile_absorb.
Qed.

Lemma trim_infix (s : jsstring) : infix (trim s) s.
Proof.
  unfold trim.
  destruct (dropWhile_suffix is_whitespace s) as (u & Eu).
  destruct (dropEndWhile_prefix is_whitespace (dropWhile is_whitespace s))
    as (v & Ev).
  exists u, v. now rewrite <- Ev.
Qed.

Lemma In_trim (s : jsstring) c : In c (trim s) -> In c s.
Proof.
  unfold trim; intros H.
  apply In_dropEndWhile in H. now apply In_dropWhile in H.
Qed.

End JsStringFacts.

(** ** The response normaliser *)

Module NormalizerFacts.
Import JsString JsStringFacts Normalizer.

Lemma tidy_is_trim (x : jsstring) : tidy x = trim x.
Proof.
  unfold tidy, trim. apply dropEndWhile_absorb. exact crlf_whitespace.
Qed.

Lemma trim_tidy (x : jsstring) : trim (tidy x) = tidy x.
Proof. rewrite tidy_is_trim. apply trim_idem. Qed.

Lemma pick_line_some (lines : list jsstring) (cmd : jsstring) :
  pick_line lines = Some cmd ->
  exists l, In l lines /\ starts_user l = false /\ starts_response l = false
            /\ cmd = tidy l.
Proof.
  unfold pick_line. destruct (Nat.ltb 1 (List.length lines)); [|discriminate].
  destruct (find _ lines) as [l|] eqn:F; [|discriminate].
  destruct (nonempty l); [|discriminate].
  intros H; injection H as <-.
  apply find_some in F. destruct F as [Hin Hp].
  apply andb_true_iff in Hp. destruct Hp as [Hu Hr].
  apply negb_true_iff in Hu, Hr. now exists l.
Qed.

Lemma pick_line_trimmed (lines : list jsstring) (cmd : jsstring) :
  pick_line lines = Some cmd -> trim cmd = cmd.
Proof.
  intros H. destruct (pick_line_some _ _ H) as (l & _ & _ & _ & ->).
  apply trim_tidy.
Qed.

(** C10.  Whatever the input, absent input included, the normaliser's
    output is a fixed point of [trim]: it has neither leading nor
    trailing white space. *)
Theorem parseAIResponse_trim_fixed (response : option jsstring) :
  trim (parseAIResponse response) = parseAIResponse response.
Proof.
  destruct response as [[|c r]|]; try reflexivity.
  unfold parseAIResponse.
  set (clean := strip_fences (c :: r)).
  destruct (responseMatch clean) as [group1|].
  - apply trim_tidy.
  - destruct (starts_user clean); [reflexivity|].
    destruct (pick_line (lines_of clean)) as [cmd|] eqn:P.
    + now apply pick_line_trimmed in P.
    + destruct (starts_response clean); [reflexivity|].
      destruct (nonempty (tidy clean)); [apply trim_tidy | reflexivity].
Qed.

(** C1 (what the code does).  On a fenced completion whose two lines
    both carry a role label the normaliser returns both lines, line feed
    included; on a ["Response:"] label followed by nothing but a fence
    it returns the empty string and not a placeholder. *)
Theorem parseAIResponse_keeps_newline_and_empty :
  parseAIResponse
    (Some (str "```" ++ [LF] ++ str " user: a" ++ [LF] ++ str "user: b"))
  = str "user: a" ++ [LF] ++ str "user: b"
  /\ includes [LF]
       (parseAIResponse
          (Some (str "```" ++ [LF] ++ str " user: a" ++ [LF] ++ str "user: b")))
     = true
  /\ parseAIResponse (Some (str "Response: ```")) = [].
Proof. repeat split; vm_compute; reflexivity. Qed.


(** *** Idempotence on clean input *)

Lemma remove_all_id (mlen : jsstring -> option nat) (s : jsstring) :
  (forall t, startsWith fence t = false -> mlen t = None) ->
  includes fence s = false ->
  remove_all mlen 0 s = s.
Proof.
  intros Hm; induction s as [|c s IH]; simpl; auto.
  intros H. apply orb_false_iff in H. destruct H as [H1 H2].
  rewrite (Hm (c :: s)) by exact H1. now rewrite IH.
Qed.

Lemma strip_fences_id (s : jsstring) :
  includes fence s = false -> strip_fences s = s.
Proof.
  intros H. unfold strip_fences.
  rewrite (remove_all_id fence_lang_len s); auto.
  - apply remove_all_id; auto.
    intros t Ht. unfold fence_len. now rewrite Ht.
  - intros t Ht. unfold fence_lang_len. now rewrite Ht.
Qed.

Ltac split_tests :=
  repeat match goal with
         | |- context [(?a <=? ?b)%N] => destruct (N.leb_spec a b); simpl
         | |- context [(?a =? ?b)%N] => destruct (N.eqb_spec a b); simpl
         | H : context [(?a <=? ?b)%N] |- _ =>
             destruct (N.leb_spec a b); simpl in H
         end.

Lemma canonicalize_lower (x y : codeunit) :
  canonicalize x = canonicalize y -> lower_codeunit y = lower_codeunit x.
Proof.
  unfold canonicalize, lower_codeunit. split_tests; intros Heq;
    try reflexivity; try (f_equal; lia); try lia.
Qed.

Lemma startsWith_same_prefix (l a b : jsstring) :
  startsWith (l ++ a) (l ++ b) = startsWith a b.
Proof.
  induction l as [|c l IH]; simpl; auto. now rewrite N.eqb_refl.
Qed.

Lemma matches_ci_lower (p s : jsstring) :
  matches_ci p s = true ->
  startsWith (toLowerCase p) (toLowerCase s) = true.
Proof.
  revert s; induction p as [|x p IH]; intros [|y s]; simpl; auto;
    try discriminate.
  rewrite andb_true_iff, N.eqb_eq. intros [E H].
  rewrite (canonicalize_lower x y E), startsWith_same_prefix. auto.
Qed.

Lemma response_at_label (s m : jsstring) :
  response_at s = Some m -> starts_response s = true.
Proof.
  unfold response_at, starts_response.
  destruct (matches_ci (str "Response:") s) eqn:E; [|discriminate].
  intros _. exact (matches_ci_lower _ _ E).
Qed.

Lemma responseMatch_label (s m : jsstring) :
  responseMatch s = Some m ->
  includes (str "response:") (toLowerCase s) = true.
Proof.
  induction s as [|c s IH]; cbn [responseMatch].
  - discriminate.
  - destruct (response_at (c :: s)) eqn:E.
    + intros _. apply startsWith_includes. exact (response_at_label _ _ E).
    + intros H. change (toLowerCase (c :: s)) with
        (lower_codeunit c ++ toLowerCase s).
      apply includes_app_r. auto.
Qed.

Lemma split_lines_cons (s : jsstring) : exists h t, split_lines s = h :: t.
Proof.
  destruct s as [|c s]; simpl; [now eexists; eexists|].
  destruct (N.eqb c LF); [now eexists; eexists|].
  destruct (split_lines s); now eexists; eexists.
Qed.

Lemma split_lines_single (s : jsstring) : ~ In LF s -> split_lines s = [s].
Proof.
  induction s as [|c s IH]; simpl; auto. intros H.
  destruct (N.eqb_spec c LF) as [->|_]; [exfalso; auto|].
  rewrite IH; auto.
Qed.

Lemma split_lines_app (a b : jsstring) :
  split_lines (a ++ LF :: b) = split_lines a ++ split_lines b.
Proof.
  induction a as [|c a IH]; simpl; auto.
  destruct (N.eqb c LF); rewrite IH; auto.
  destruct (split_lines_cons a) as (h & t & ->). reflexivity.
Qed.

Lemma join_split_lines (s : jsstring) : join_lines (split_lines s) = s.
Proof.
  induction s as [|c s IH]; simpl; auto.
  destruct (split_lines_cons s) as (h & t & E). rewrite E in *.
  destruct (N.eqb_spec c LF) as [->|_].
  - change (join_lines ([] :: h :: t)) with (LF :: join_lines (h :: t)).
    now rewrite IH.
  - destruct t; simpl in *; now rewrite IH.
Qed.

Lemma In_join_infix (x : jsstring) (l : list jsstring) :
  In x l -> infix x (join_lines l).
Proof.
  induction l as [|y [|z r] IH].
  - intros [].
  - intros [->|[]]. apply infix_refl.
  - intros [->|H].
    + exists [], (LF :: join_lines (z :: r)). reflexivity.
    + destruct (IH H) as (u & v & E).
      exists (y ++ LF :: u), v.
      change (join_lines (y :: z :: r)) with (y ++ LF :: join_lines (z :: r)).
      rewrite E, <- app_assoc. reflexivity.
Qed.

Lemma split_lines_infix (s seg : jsstring) :
  In seg (split_lines s) -> infix seg s.
Proof.
  intros H. apply In_join_infix in H. now rewrite join_split_lines in H.
Qed.

Lemma split_lines_no_LF (s seg : jsstring) :
  In seg (split_lines s) -> ~ In LF seg.
Proof.
  revert seg; induction s as [|c s IH]; simpl; intros seg.
  - intros [<-|[]]. auto.
  - destruct (N.eqb_spec c LF) as [->|Hc].
    + intros [<-|H]; auto.
    + destruct (split_lines_cons s) as (h & t & E). rewrite E in *.
      intros [<-|H].
      * intros [F|F]; [congruence|]. apply (IH h); auto. now left.
      * apply IH. now right.
Qed.


Lemma trim_nonws (s : jsstring) (c : codeunit) :
  In c s -> is_whitespace c = false -> trim s <> [].
Proof.
  induction s as [|x s IH]; [intros []|].
  intros Hin Hc. destruct (is_whitespace x) eqn:Hx.
  - unfold trim; simpl; rewrite Hx. apply IH; auto.
    destruct Hin as [->|]; [congruence | assumption].
  - unfold trim. rewrite (dropWhile_keep _ _ s Hx).
    destruct (dropEndWhile_keep _ _ s Hx) as (r' & ->). discriminate.
Qed.

Lemma In_split_lines (s : jsstring) (c : codeunit) :
  In c s -> c <> LF -> exists seg, In seg (split_lines s) /\ In c seg.
Proof.
  induction s as [|x s IH]; [intros []|]. intros Hin Hc. simpl.
  destruct (split_lines_cons s) as (h & t & E). rewrite E in *.
  destruct (N.eqb_spec x LF) as [->|Hx].
  - destruct Hin as [<-|Hin]; [congruence|].
    destruct (IH Hin Hc) as (seg & Hs & Hi).
    exists seg; split; [now right | assumption].
  - destruct Hin as [<-|Hin].
    + exists (x :: h). split; now left.
    + destruct (IH Hin Hc) as (seg & [<-|Hs] & Hi).
      * exists (x :: h). split; [now left | now right].
      * exists seg. split; [now right | assumption].
Qed.

Lemma lines_of_nonws (s : jsstring) (c : codeunit) :
  In c s -> is_whitespace c = false -> lines_of s <> [].
Proof.
  intros Hin Hc.
  assert (Hlf : c <> LF) by (intros ->; discriminate).
  destruct (In_split_lines s c Hin Hlf) as (seg & Hs & Hi).
  assert (H : In (trim seg) (lines_of s)).
  { unfold lines_of. apply filter_In. split.
    - now apply in_map.
    - pose proof (trim_nonws seg c Hi Hc). now destruct (trim seg). }
  intros E. rewrite E in H. exact H.
Qed.

Lemma lines_of_app (a b : jsstring) :
  lines_of (a ++ LF :: b) = lines_of a ++ lines_of b.
Proof.
  unfold lines_of. now rewrite split_lines_app, map_app, filter_app.
Qed.

Lemma lines_of_member (x l : jsstring) :
  In l (lines_of x) ->
  l <> [] /\ trim l = l /\ ~ In LF l /\ infix l x.
Proof.
  unfold lines_of. intros H. apply filter_In in H. destruct H as [H Hn].
  apply in_map_iff in H. destruct H as (seg & <- & Hs).
  repeat split.
  - intros E; rewrite E in Hn; discriminate.
  - apply trim_idem.
  - intros F. apply In_trim in F. exact (split_lines_no_LF _ _ Hs F).
  - exact (infix_trans _ _ _ (trim_infix seg) (split_lines_infix _ _ Hs)).
Qed.

(** With at most one non-blank line, the trimmed text holds no line
    feed. *)
Lemma single_line_no_LF (x : jsstring) :
  Nat.ltb 1 (List.length (lines_of x)) = false -> ~ In LF (trim x).
Proof.
  intros Hlen HLF.
  destruct (in_split _ _ HLF) as (a & b & E).
  destruct (trim_infix x) as (u & v & Ex).
  assert (Ha : exists c, In c a /\ is_whitespace c = false).
  { destruct a as [|c0 a'].
    - simpl in E. apply trim_head in E. discriminate.
    - exists c0. split; [now left | exact (trim_head _ _ _ E)]. }
  assert (Hb : exists c, In c b /\ is_whitespace c = false).
  { assert (F : dropEndWhile is_whitespace (a ++ LF :: b) = a ++ LF :: b).
    { rewrite <- E. unfold trim. now apply dropEndWhile_absorb. }
    destruct (dropEndWhile_fixed_tail _ _ _ F) as (c & [<-|Hc] & Hw);
      [discriminate | discriminate | now exists c]. }
  destruct Ha as (ca & Hca & Wa). destruct Hb as (cb & Hcb & Wb).
  assert (Hx : x = (u ++ a) ++ LF :: (b ++ v)).
  { rewrite Ex, E. now rewrite <- !app_assoc. }
  rewrite Hx, lines_of_app, length_app in Hlen.
  assert (L1 : lines_of (u ++ a) <> []).
  { apply (lines_of_nonws _ ca); auto. apply in_or_app; now right. }
  assert (L2 : lines_of (b ++ v) <> []).
  { apply (lines_of_nonws _ cb); auto. apply in_or_app; now left. }
  destruct (lines_of (u ++ a)); [congruence|].
  destruct (lines_of (b ++ v)); [congruence|].
  simpl in Hlen. apply Nat.ltb_ge in Hlen. lia.
Qed.

Lemma no_label_starts (l : jsstring) :
  has_role_label l = false ->
  starts_user l = false /\ starts_response l = false.
Proof.
  unfold has_role_label, starts_user, starts_response. intros H.
  apply orb_false_iff in H. destruct H as [Hu Hr].
  split.
  - destruct (startsWith (str "user:") (toLowerCase l)) eqn:E; auto.
    apply startsWith_includes in E. congruence.
  - destruct (startsWith (str "response:") (toLowerCase l)) eqn:E; auto.
    apply startsWith_includes in E. congruence.
Qed.

Lemma no_label_infix (a b : jsstring) :
  infix a b -> has_role_label b = false -> has_role_label a = false.
Proof.
  unfold has_role_label. intros Hi H.
  apply orb_false_iff in H. destruct H as [Hu Hr].
  apply toLowerCase_infix in Hi.
  now rewrite (includes_infix _ _ _ Hi Hu), (includes_infix _ _ _ Hi Hr).
Qed.

Lemma no_label_no_match (x : jsstring) :
  has_role_label x = false -> responseMatch x = None.
Proof.
  unfold has_role_label. intros H.
  apply orb_false_iff in H. destruct H as [_ Hr].
  destruct (responseMatch x) eqn:E; auto.
  apply responseMatch_label in E. congruence.
Qed.

(** A trimmed, non-empty, single-line text without fence or role label
    is returned as it is. *)
Lemma clean_line_fixed (t : jsstring) :
  t <> [] -> trim t = t -> ~ In LF t ->
  has_fence t = false -> has_role_label t = false ->
  parseAIResponse (Some t) = t.
Proof.
  intros Hne Htrim Hlf Hf Hl.
  destruct t as [|c r]; [congruence|].
  unfold parseAIResponse.
  rewrite (strip_fences_id _ Hf), (no_label_no_match _ Hl).
  destruct (no_label_starts _ Hl) as [-> ->].
  unfold lines_of. rewrite (split_lines_single _ Hlf).
  cbn [map]. rewrite Htrim. cbn [filter nonempty pick_line List.length Nat.ltb Nat.leb].
  rewrite tidy_is_trim, Htrim. reflexivity.
Qed.

(** The outcome of the normaliser on a text without fence or role
    label: the empty-input placeholder, or a clean single line taken
    from the text. *)
Lemma clean_outcome (x : jsstring) :
  has_fence x = false -> has_role_label x = false ->
  parseAIResponse (Some x) = NO_COMMAND \/
  (parseAIResponse (Some x) <> [] /\
   trim (parseAIResponse (Some x)) = parseAIResponse (Some x) /\
   ~ In LF (parseAIResponse (Some x)) /\
   infix (parseAIResponse (Some x)) x).
Proof.
  intros Hf Hl. destruct x as [|c r]; [now left|].
  unfold parseAIResponse.
  rewrite (strip_fences_id _ Hf), (no_label_no_match _ Hl).
  destruct (no_label_starts _ Hl) as [-> ->].
  destruct (pick_line (lines_of (c :: r))) as [cmd|] eqn:P.
  - right. destruct (pick_line_some _ _ P) as (l & Hin & _ & _ & ->).
    destruct (lines_of_member _ _ Hin) as (Hne & Ht & Hlf & Hi).
    rewrite tidy_is_trim, Ht. auto.
  - assert (Hlen : Nat.ltb 1 (List.length (lines_of (c :: r))) = false).
    { destruct (Nat.ltb 1 (List.length (lines_of (c :: r)))) eqn:L; auto.
      exfalso. unfold pick_line in P. rewrite L in P.
      destruct (lines_of (c :: r)) as [|l0 ls] eqn:E; [discriminate L|].
      assert (Hin : In l0 (lines_of (c :: r))) by (rewrite E; now left).
      destruct (lines_of_member _ _ Hin) as (Hne & _ & _ & Hi).
      destruct (no_label_starts _ (no_label_infix _ _ Hi Hl)) as [Hu Hr].
      cbn [find] in P. rewrite Hu, Hr in P. cbn in P.
      destruct l0; [congruence | discriminate P]. }
    rewrite tidy_is_trim.
    destruct (trim (c :: r)) as [|c' r'] eqn:T; [now left|]. right.
    cbn [nonempty]. rewrite <- T. repeat split.
    + rewrite T; discriminate.
    + apply trim_idem.
    + now apply single_line_no_LF.
    + apply trim_infix.
Qed.

(** C7.  On a text that holds no triple-backtick fence and no ["user:"]
    or ["response:"] role label (in any letter case), normalising twice
    gives what normalising once gives. *)
Theorem parseAIResponse_idempotent_clean (x : jsstring) :
  has_fence x = false -> has_role_label x = false ->
  parseAIResponse (Some (parseAIResponse (Some x))) = parseAIResponse (Some x).
Proof.
  intros Hf Hl.
  destruct (clean_outcome x Hf Hl) as [-> | (Hne & Ht & Hlf & Hi)].
  - vm_compute. reflexivity.
  - apply clean_line_fixed; auto.
    + exact (includes_infix _ _ _ Hi Hf).
    + exact (no_label_infix _ _ Hi Hl).
Qed.

Lemma parseAIResponse_idempotent_clean_witness :
  has_fence (str "  ls -la  ") = false /\
  has_role_label (str "  ls -la  ") = false /\
  parseAIResponse (Some (parseAIResponse (Some (str "  ls -la  "))))
  = parseAIResponse (Some (str "  ls -la  ")).
Proof.
  split; [reflexivity|]. split; [reflexivity|].
  apply (parseAIResponse_idempotent_clean (str "  ls -la  ")); reflexivity.
Defined.


(** *** Where the output is a single line *)

Lemma lazy_capture_line (s m : jsstring) :
  lazy_capture s = Some m -> m <> [] /\ ~ In LF m.
Proof.
  revert m; induction s as [|c r IH]; cbn [lazy_capture]; [discriminate|].
  intros m. destruct (is_line_terminator c) eqn:T; [discriminate|].
  assert (Hc : c <> LF) by (intros ->; discriminate).
  assert (H1 : [c] <> [] /\ ~ In LF [c]).
  { split; [discriminate | intros [E|[]]; congruence]. }
  destruct r as [|d r'].
  - intros H; injection H as <-. exact H1.
  - destruct (N.eqb d LF).
    + intros H; injection H as <-. exact H1.
    + destruct (lazy_capture (d :: r')) as [m'|]; [|discriminate].
      intros H; injection H as <-.
      destruct (IH m' eq_refl) as [_ Hm].
      split; [discriminate | intros [E|E]; congruence || auto].
Qed.

Lemma after_label_line (s m : jsstring) :
  after_label s = Some m -> ~ In LF m.
Proof.
  induction s as [|c r IH]; cbn [after_label].
  - intros H. now apply lazy_capture_line in H.
  - destruct (is_whitespace c).
    + destruct (after_label r) as [m'|].
      * intros H; injection H as <-. now apply IH.
      * intros H. now apply lazy_capture_line in H.
    + intros H. now apply lazy_capture_line in H.
Qed.

Lemma responseMatch_line (s m : jsstring) :
  responseMatch s = Some m -> ~ In LF m.
Proof.
  assert (Hat : forall t, response_at t = Some m -> ~ In LF m).
  { intros t. unfold response_at.
    destruct (matches_ci (str "Response:") t); [|discriminate].
    apply after_label_line. }
  induction s as [|c r IH]; cbn [responseMatch].
  - destruct (response_at []) eqn:E; [|discriminate].
    intros H; injection H as <-. eapply Hat; eauto.
  - destruct (response_at (c :: r)) eqn:E.
    + intros H; injection H as <-. eapply Hat; eauto.
    + exact IH.
Qed.

Lemma placeholders_line : ~ In LF NO_COMMAND /\ ~ In LF NOT_PROPERLY.
Proof.
  split; intros H; vm_compute in H;
    repeat (destruct H as [H|H]; [discriminate H|]); exact H.
Qed.

Lemma tidy_line (x : jsstring) : ~ In LF x -> ~ In LF (tidy x).
Proof.
  intros H F. apply H. rewrite tidy_is_trim in F. now apply In_trim in F.
Qed.

(** X4.  A line feed can only survive in the output through the last
    [return] of the function: the label rule and the first-line rule
    both yield a single line. *)
Lemma parseAIResponse_line_unless_last_return (response : jsstring) :
  In LF (parseAIResponse (Some response)) ->
  responseMatch (strip_fences response) = None
  /\ pick_line (lines_of (strip_fences response)) = None
  /\ parseAIResponse (Some response) = tidy (strip_fences response).
Proof.
  destruct placeholders_line as [N1 N2].
  destruct response as [|c r]; [intros H; now apply N1 in H|].
  unfold parseAIResponse. set (clean := strip_fences (c :: r)).
  destruct (responseMatch clean) as [g|] eqn:M.
  - intros H. exfalso. exact (tidy_line _ (responseMatch_line _ _ M) H).
  - destruct (starts_user clean); [intros H; now apply N2 in H|].
    destruct (pick_line (lines_of clean)) as [cmd|] eqn:P.
    + intros H. exfalso.
      destruct (pick_line_some _ _ P) as (l & Hin & _ & _ & ->).
      destruct (lines_of_member _ _ Hin) as (_ & _ & Hlf & _).
      exact (tidy_line _ Hlf H).
    + destruct (starts_response clean); [intros H; now apply N2 in H|].
      destruct (nonempty (tidy clean)); [auto | intros H; now apply N1 in H].
Qed.

End NormalizerFacts.

(** ** The settings operations *)

Module SettingsFacts.
Import JsString JsStringFacts Js Store SettingsOps.

Lemma strict_eq_spec (a b : option jsstring) :
  strict_eq a b = true <-> a = b.
Proof.
  destruct a as [x|], b as [y|]; simpl; try (split; congruence).
  rewrite eqb_eq. split; congruence.
Qed.

(** The credential that a request stores: an empty string becomes
    [null]. *)
Lemma build_payload_credential (u : Patch) (k : option jsstring) :
  p_apiKey (build_payload u) = Some k -> k <> Some [].
Proof.
  unfold build_payload; simpl. destruct (p_apiKey u) as [a|]; [|discriminate].
  destruct (strict_eq a (Some [])) eqn:E; intros H; injection H as <-.
  - discriminate.
  - intros ->. discriminate E.
Qed.

(** The row after an update, field by field: the row that
    [getOrCreateSettings] reads, with the supplied fields overwritten. *)
Lemma updateAISettings_row (u : Patch) (st : Store) :
  snd (updateAISettings u st)
  = Some (apply_patch (build_payload u) (fst (getOrCreateSettings st))).
Proof.
  unfold updateAISettings.
  destruct st as [s|]; simpl; rewrite ?N.eqb_refl; reflexivity.
Qed.

(** X7.  The store invariant is kept by every update: if the stored
    credential is not the empty string before, it is not afterwards. *)
Lemma updateAISettings_normalised (u : Patch) (st : Store) (s' : Settings) :
  (forall s, st = Some s -> credential_normalised s) ->
  snd (updateAISettings u st) = Some s' ->
  credential_normalised s'.
Proof.
  intros Hst. rewrite updateAISettings_row. intros H; injection H as <-.
  unfold credential_normalised, apply_patch; simpl.
  destruct (p_apiKey u) as [a|]; simpl.
  - destruct (strict_eq a (Some [])) eqn:E; [discriminate|].
    intros ->. discriminate E.
  - destruct st as [s|]; simpl; [now apply Hst | discriminate].
Qed.

(** C6.  [updateAISettings] applies only the fields of the request that
    are present: whatever else the request holds, an empty credential
    is stored as [null]; a request without fields leaves the stored
    record as it is; and in general each of the five fields keeps its
    stored value when the request omits it and takes the supplied one
    otherwise. *)
Theorem updateAISettings_partial :
  (forall (st : Store) e p m a,
      option_map apiKey
        (snd (updateAISettings
                {| p_enabled := e; p_provider := p; p_model := m;
                   p_apiUrl := a; p_apiKey := Some (Some []) |} st))
      = Some None)
  /\ (forall s : Settings, snd (updateAISettings empty_patch (Some s)) = Some s)
  /\ (forall (u : Patch) (s : Settings),
        exists s', snd (updateAISettings u (Some s)) = Some s'
          /\ enabled s' = override (p_enabled u) (enabled s)
          /\ provider s' = override (p_provider u) (provider s)
          /\ model s' = override (p_model u) (model s)
          /\ apiUrl s' = override (p_apiUrl u) (apiUrl s)
          /\ apiKey s' =
               match p_apiKey u with
               | None => apiKey s
               | Some (Some []) => None
               | Some k => k
               end).
Proof.
  split; [|split].
  - intros st e p m a. rewrite updateAISettings_row. reflexivity.
  - intros s. rewrite updateAISettings_row. now destruct s.
  - intros u s. rewrite updateAISettings_row. eexists. split; [reflexivity|].
    simpl. repeat split.
    destruct (p_apiKey u) as [[[|c k]|]|]; reflexivity.
Qed.

End SettingsFacts.

(** ** The configuration validator *)

Module RegistryFacts.
Import JsString JsStringFacts Js Http Store Registry.

Section Validator.

Variable authHeaders : option jsstring -> Headers.
Variable normalizeUrl : option jsstring -> option jsstring.

Lemma getProviderConfig_kinds (settings : Settings) (config : ProviderConfig) :
  getProviderConfig authHeaders normalizeUrl settings = Some config ->
  is_str (provider settings) "openai" = true
  \/ is_str (provider settings) "openai_compatible" = true
  \/ is_str (provider settings) "ollama" = true.
Proof.
  unfold getProviderConfig.
  destruct (is_str (provider settings) "openai"); auto.
  destruct (is_str (provider settings) "openai_compatible"); auto.
  destruct (is_str (provider settings) "ollama"); auto.
  discriminate.
Qed.

(** C5.  For a stored configuration of any of the three provider kinds,
    the validator answers with the credential-missing error exactly
    when the resolved contract requires a credential and the stored
    credential is [null]; the enabled flag, the model and the base URL
    play no part. *)
Theorem validateProviderConfig_credential
    (settings : Settings) (config : ProviderConfig) :
  credential_normalised settings ->
  getProviderConfig authHeaders normalizeUrl settings = Some config ->
  (credential_missing (validateProviderConfig settings (Some config)) = true
   <-> requiresApiKey config = true /\ apiKey settings = None).
Proof.
  unfold credential_normalised, getProviderConfig, validateProviderConfig.
  intros Hn.
  destruct (is_str (provider settings) "openai") eqn:P1.
  - intros H; injection H as <-; simpl.
    destruct (apiKey settings) as [[|c k]|]; simpl.
    + exfalso; apply Hn; reflexivity.
    + split; [discriminate | intros [_ H]; discriminate H].
    + split; auto.
  - destruct (is_str (provider settings) "openai_compatible") eqn:P2.
    + intros H; injection H as <-; simpl.
      destruct (apiKey settings) as [[|c k]|]; simpl.
      * exfalso; apply Hn; reflexivity.
      * destruct (truthy (apiUrl settings)); simpl;
          (split; [discriminate | intros [_ H]; discriminate H]).
      * split; auto.
    + destruct (is_str (provider settings) "ollama") eqn:P3; [|discriminate].
      intros H; injection H as <-; simpl.
      split; [discriminate | intros [H _]; discriminate H].
Qed.

(** The validator tests the credential for truthiness, so an empty
    string, which the store never holds, would count as missing too. *)
Remark validateProviderConfig_empty_credential
    (settings : Settings) (config : ProviderConfig) :
  requiresApiKey config = true ->
  apiKey settings = Some [] ->
  credential_missing (validateProviderConfig settings (Some config)) = true.
Proof.
  intros Hr Hk. unfold validateProviderConfig. rewrite Hr, Hk. simpl.
  now destruct (is_str (provider settings) "openai").
Qed.

End Validator.

Lemma validateProviderConfig_credential_witness :
  let settings :=
    {| id := 1; enabled := true; provider := Some (str "openai_compatible");
       model := Some (str "m"); apiKey := None; apiUrl := None |} in
  let config :=
    {| baseUrl := None; config_headers := []; requiresApiKey := true;
       requiresApiUrl := true |} in
  credential_normalised settings /\
  getProviderConfig (fun _ => []) (fun u => u) settings = Some config /\
  (credential_missing (validateProviderConfig settings (Some config)) = true
   <-> requiresApiKey config = true /\ apiKey settings = None).
Proof.
  intros settings config.
  split; [discriminate|]. split; [reflexivity|].
  apply (validateProviderConfig_credential (fun _ => []) (fun u => u)).
  - discriminate.
  - reflexivity.
Defined.

End RegistryFacts.

(** ** The connectivity prober *)

Module ProberFacts.
Import JsString JsStringFacts Js Http Store Prober.
Import SettingsFacts.

Lemma includes_self (p u v : jsstring) : includes p (u ++ p ++ v) = true.
Proof.
  apply includes_app_r, includes_app_l, startsWith_includes.
  induction p as [|c p IH]; simpl; auto. now rewrite N.eqb_refl.
Qed.

Lemma not_found_names_model (settings : Settings) (m : jsstring) (place : string) :
  model settings = Some m ->
  includes m (not_found settings place) = true.
Proof.
  intros E. unfold not_found. rewrite E. simpl show.
  rewrite (app_assoc (str "Configured model ") [quote]).
  apply includes_self.
Qed.

Lemma existsb_strict_eq (x : option jsstring) (l : list (option jsstring)) :
  ~ In x l -> existsb (strict_eq x) l = false.
Proof.
  intros H. destruct (existsb (strict_eq x) l) eqn:E; auto.
  apply existsb_exists in E. destruct E as (y & Hy & Ey).
  apply strict_eq_spec in Ey. subst y. contradiction.
Qed.

Lemma existsb_entry_id (x : option jsstring) (l : list ModelEntry) :
  ~ In x (map entry_id l) ->
  existsb (fun m => strict_eq (entry_id m) x) l = false.
Proof.
  intros H. destruct (existsb _ l) eqn:E; auto.
  apply existsb_exists in E. destruct E as (y & Hy & Ey).
  apply strict_eq_spec in Ey. exfalso. apply H. rewrite <- Ey.
  now apply in_map.
Qed.

Section Probe.

Variable fetch : Fetch.
Variable settings : Settings.
Variable m : jsstring.

Hypothesis enabled_on : enabled settings = true.
Hypothesis model_set : model settings = Some m.
Hypothesis model_nonempty : m <> [].
Hypothesis is_ready : ready settings = true.

Lemma provider_set : truthy (provider settings) = true.
Proof using is_ready.
  pose proof is_ready as R. unfold ready, is_str in R.
  destruct (provider settings) as [[|c p]|]; auto; discriminate.
Qed.

Lemma model_truthy : truthy (model settings) = true.
Proof using model_set model_nonempty. rewrite model_set. now destruct m. Qed.

Lemma testAIConnection_ready :
  testAIConnection fetch (Some settings)
  = try_catch (probe fetch settings)
      (fun e => Failed 500 (str "Connection test failed: " ++ e)).
Proof.
  unfold testAIConnection, findOne.
  now rewrite enabled_on, provider_set, model_truthy.
Qed.

(** The probe of a ready configuration is its listing call followed by
    the look-up of the configured model. *)
Lemma probe_ready :
  probe fetch settings =
  match fetch (listing_request settings) with
  | Throw e => Throw e
  | Normal response =>
      if negb (ok response) then
        Normal (Failed 500
                  ((if is_str (provider settings) "ollama"
                    then str "Ollama API error: "
                    else str "OpenAI API error: ") ++ of_N (status response)))
      else
        match json response with
        | Throw e => Throw e
        | Normal body =>
            match listed settings body with
            | None => Throw (type_error "undefined" "some")
            | Some ids =>
                if existsb (strict_eq (model settings)) ids
                then Normal (Success (str "Connection test successful"))
                else Normal (Failed 400
                       (not_found settings
                          (if is_str (provider settings) "openai"
                           then "your OpenAI account"
                           else if is_str (provider settings) "ollama"
                           then "Ollama" else "OpenAI Compatible API")))
            end
        end
  end.
Proof using is_ready.
  clear enabled_on model_set model_nonempty.
  assert (Hex : forall l,
             existsb (fun e => strict_eq (entry_id e) (model settings)) l
             = existsb (strict_eq (model settings)) (map entry_id l)).
  { induction l as [|e l IH]; simpl; auto. rewrite IH. f_equal.
    destruct (entry_id e), (model settings); simpl; auto.
    destruct (eqb j j0) eqn:E.
    - apply eqb_eq in E. subst. symmetry. apply eqb_refl.
    - destruct (eqb j0 j) eqn:E'; auto.
      apply eqb_eq in E'. subst. now rewrite eqb_refl in E. }
  pose proof is_ready as R. unfold ready in R.
  unfold probe, listing_request, listed.
  destruct (is_str (provider settings) "openai") eqn:P1.
  - assert (P2 : is_str (provider settings) "ollama" = false).
    { unfold is_str in *. apply strict_eq_spec in P1. now rewrite P1. }
    rewrite P2. unfold probe_openai. rewrite R. simpl negb. cbv iota.
    simpl bind. destruct (fetch _) as [response|e]; simpl; auto.
    destruct (ok response); simpl; auto.
    destruct (json response) as [body|e]; simpl; auto.
    destruct (Http.data body) as [l|]; simpl; auto.
    rewrite Hex. now destruct (existsb _ (map entry_id l)).
  - destruct (is_str (provider settings) "ollama") eqn:P2.
    + unfold probe_ollama. simpl bind.
      destruct (fetch _) as [response|e]; simpl; auto.
      destruct (ok response); simpl; auto.
      destruct (json response) as [body|e]; simpl; auto.
      now destruct (existsb _ _).
    + destruct (is_str (provider settings) "openai_compatible") eqn:P3;
        [|discriminate].
      apply andb_true_iff in R. destruct R as [U K].
      unfold probe_compatible. rewrite U, K. simpl negb. cbv iota.
      simpl bind. destruct (fetch _) as [response|e]; simpl; auto.
      destruct (ok response); simpl; auto.
      destruct (json response) as [body|e]; simpl; auto.
      destruct (Http.data body) as [l|]; simpl; auto.
      rewrite Hex. now destruct (existsb _ (map entry_id l)).
Qed.

End Probe.

(** C8.  For each of the three provider kinds: when the listing call
    of the probe answers with a 2xx response whose decoded body reports
    a list of models and the configured model is not among them, the
    prober returns a structured error with code 400 whose message
    quotes the missing model. *)
Theorem testAIConnection_model_not_found
    (fetch : Fetch) (settings : Settings) (m : jsstring)
    (response : Response) (body : Json) (ids : list (option jsstring)) :
  enabled settings = true ->
  model settings = Some m ->
  m <> [] ->
  ready settings = true ->
  fetch (listing_request settings) = Normal response ->
  ok response = true ->
  json response = Normal body ->
  listed settings body = Some ids ->
  ~ In (Some m) ids ->
  exists message,
    testAIConnection fetch (Some settings) = Normal (Failed 400 message)
    /\ includes m message = true
    /\ includes (str "not found") message = true.
Proof.
  intros He Hm Hne Hr Hf Hok Hj Hl Hin.
  rewrite (testAIConnection_ready fetch settings m He Hm Hne Hr).
  rewrite (probe_ready fetch settings Hr), Hf, Hok, Hj, Hl. simpl negb. cbv iota.
  rewrite Hm, (existsb_strict_eq _ _ Hin). simpl try_catch.
  eexists. split; [reflexivity|]. split.
  - apply not_found_names_model. exact Hm.
  - unfold not_found.
    rewrite !app_assoc, <- (app_assoc _ (str " not found in ")).
    change (str " not found in ") with ([32%N] ++ str "not found" ++ str " in ").
    rewrite <- !app_assoc. rewrite !app_assoc.
    rewrite <- (app_assoc _ (str "not found")), <- (app_assoc _ (str "not found" ++ _)).
    rewrite <- (app_assoc (str "not found")).
    apply includes_self.
Qed.

End ProberFacts.

Module ProberCatch.
Import JsString JsStringFacts Js Http Store Prober ProberFacts Samples.

Lemma testAIConnection_model_not_found_witness :
  exists message,
    testAIConnection answering (Some hosted) = Normal (Failed 400 message)
    /\ includes (str "gpt-9") message = true
    /\ includes (str "not found") message = true.
Proof.
  apply (testAIConnection_model_not_found answering hosted (str "gpt-9")
           {| ok := true; status := 200; json := Normal catalogue |}
           catalogue [Some (str "gpt-4")]);
    try reflexivity.
  - discriminate.
  - simpl. intros [H|[]]. discriminate H.
Defined.

(** C9.  The prober always completes normally, and a transport error
    thrown by the listing call, or by the decoding of its 2xx response,
    comes back as a structured error with code 500 whose message ends
    with the message of the error thrown. *)
Theorem testAIConnection_catches (fetch : Fetch) (st : Store) :
  (exists result, testAIConnection fetch st = Normal result)
  /\ (forall settings m e,
        st = Some settings ->
        enabled settings = true ->
        model settings = Some m ->
        m <> [] ->
        ready settings = true ->
        (fetch (listing_request settings) = Throw e
         \/ exists response,
              fetch (listing_request settings) = Normal response
              /\ ok response = true /\ json response = Throw e) ->
        testAIConnection fetch st
        = Normal (Failed 500 (str "Connection test failed: " ++ e))).
Proof.
  split.
  - unfold testAIConnection, findOne. destruct st as [settings|]; [|eauto].
    destruct (enabled settings); simpl; [|eauto].
    destruct (truthy (provider settings)); simpl; [|eauto].
    destruct (truthy (model settings)); simpl; [|eauto].
    destruct (probe fetch settings); simpl; eauto.
  - intros settings m e -> He Hm Hne Hr Hthrow.
    rewrite (testAIConnection_ready fetch settings m He Hm Hne Hr).
    rewrite (probe_ready fetch settings Hr).
    destruct Hthrow as [-> | (response & -> & -> & ->)]; reflexivity.
Qed.

Lemma testAIConnection_catches_witness :
  testAIConnection refusing (Some hosted)
  = Normal (Failed 500 (str "Connection test failed: ECONNREFUSED")).
Proof.
  apply (proj2 (testAIConnection_catches refusing (Some hosted))
           hosted (str "gpt-9") (str "ECONNREFUSED"));
    try reflexivity.
  - discriminate.
  - left. reflexivity.
Defined.

End ProberCatch.

(** ** The model lister *)

Module ListerFacts.
Import JsString JsStringFacts Js Http Store Registry Lister.
Import SettingsFacts.

Lemma leb_total (a b : jsstring) : leb a b = false -> leb b a = true.
Proof.
  revert b; induction a as [|x a IH]; intros [|y b]; simpl; auto;
    try discriminate.
  destruct (N.ltb_spec x y), (N.ltb_spec y x); auto; try discriminate; lia.
Qed.

Lemma In_insert (x y : jsstring) (l : list jsstring) :
  In y (insert x l) <-> y = x \/ In y l.
Proof.
  induction l as [|z l IH]; simpl.
  - intuition.
  - destruct (leb x z); simpl; rewrite ?IH; intuition.
Qed.

Lemma In_sort (y : jsstring) (l : list jsstring) : In y (sort l) <-> In y l.
Proof.
  induction l as [|x l IH]; simpl; [tauto|].
  rewrite In_insert, IH. intuition.
Qed.

Lemma insert_sorted (x : jsstring) (l : list jsstring) :
  Sorted le l -> Sorted le (insert x l).
Proof.
  induction 1 as [|z l Hs IH Hhd]; simpl.
  - repeat constructor.
  - destruct (leb x z) eqn:E.
    + constructor; [now constructor | now constructor].
    + constructor; auto.
      apply leb_total in E.
      destruct l as [|w l]; simpl.
      * now constructor.
      * destruct (leb x w); constructor; auto.
        now inversion Hhd.
Qed.

Lemma sort_sorted (l : list jsstring) : Sorted le (sort l).
Proof.
  induction l as [|x l IH]; simpl; [constructor | now apply insert_sorted].
Qed.

Lemma is_chat_model_markers (id marker : jsstring) :
  is_chat_model id = true -> In marker NON_CHAT_MARKERS ->
  includes marker id = false.
Proof.
  unfold is_chat_model. rewrite !andb_true_iff, !negb_true_iff.
  intros ((((((_ & H1) & H2) & H3) & H4) & H5) & H6).
  simpl. intros [<-|[<-|[<-|[<-|[<-|[<-|[]]]]]]]; assumption.
Qed.

Lemma chat_model_ids_kept (entries : list ModelEntry) (ids : list jsstring) :
  chat_model_ids entries = Normal ids ->
  forall id, In id ids ->
    is_chat_model id = true /\ In (Some id) (map entry_id entries).
Proof.
  revert ids; induction entries as [|e entries IH]; simpl; intros ids.
  - intros H; injection H as <-. intros id [].
  - destruct (entry_id e) as [i|]; simpl; [|discriminate].
    destruct (chat_model_ids entries) as [rest|]; simpl; [|discriminate].
    intros H; injection H as <-. intros id Hin.
    destruct (is_chat_model i) eqn:C.
    + destruct Hin as [<-|Hin]; [now split; auto|].
      destruct (IH rest eq_refl id Hin); auto.
    + destruct (IH rest eq_refl id Hin); auto.
Qed.

Lemma is_str_openai_not_ollama (p : option jsstring) :
  is_str p "openai" = true -> is_str p "ollama" = false.
Proof.
  unfold is_str. intros H. apply strict_eq_spec in H. now subst p.
Qed.

(** C4.  For the hosted provider, every identifier of a returned list
    of models is free of the six non-chat markers (it includes ["gpt"],
    and comes from the provider's listing), and the list is in
    lexicographic order of code units. *)
Theorem fetchModelsForProvider_hosted_list
    (fetch : Fetch) (settings : Settings) (config : option ProviderConfig)
    (l : list jsstring) :
  is_str (provider settings) "openai" = true ->
  fetchModelsForProvider fetch settings config = Normal (Models l) ->
  Sorted le l
  /\ Forall (fun id =>
               (forall marker, In marker NON_CHAT_MARKERS ->
                               includes marker id = false)
               /\ includes (str "gpt") id = true) l.
Proof.
  intros P. unfold fetchModelsForProvider.
  rewrite (is_str_openai_not_ollama _ P), P. unfold list_openai.
  assert (Hnil : Sorted le [] /\
                 Forall (fun id =>
                   (forall marker, In marker NON_CHAT_MARKERS ->
                                   includes marker id = false)
                   /\ includes (str "gpt") id = true) []) by (split; constructor).
  destruct (truthy (apiKey settings)); simpl; [|discriminate].
  destruct (fetch _) as [response|e]; simpl;
    [|intros H; injection H as <-; exact Hnil].
  destruct (ok response); simpl; [|discriminate].
  destruct (json response) as [body|e]; simpl;
    [|intros H; injection H as <-; exact Hnil].
  destruct (Http.data body) as [entries|]; simpl;
    [|intros H; injection H as <-; exact Hnil].
  destruct (chat_model_ids entries) as [ids|e] eqn:C; simpl;
    [|intros H; injection H as <-; exact Hnil].
  intros H; injection H as <-. split; [apply sort_sorted|].
  apply Forall_forall. intros id Hin. apply (proj1 (In_sort _ _)) in Hin.
  destruct (chat_model_ids_kept _ _ C id Hin) as [Hc _]. split.
  - intros marker Hm. now apply is_chat_model_markers.
  - unfold is_chat_model in Hc. rewrite !andb_true_iff in Hc. tauto.
Qed.

End ListerFacts.

Module ListerTransport.
Import JsString JsStringFacts Js Http Store Registry Lister ListerFacts Samples.

Lemma fetchModelsForProvider_hosted_list_witness :
  is_str (provider hosted) "openai" = true
  /\ fetchModelsForProvider (serving mixed_catalogue) hosted None
     = Normal (Models [str "gpt-3.5-turbo"; str "gpt-4"; str "gpt-4o"])
  /\ Sorted le [str "gpt-3.5-turbo"; str "gpt-4"; str "gpt-4o"]
  /\ Forall (fun id =>
               (forall marker, In marker NON_CHAT_MARKERS ->
                               includes marker id = false)
               /\ includes (str "gpt") id = true)
            [str "gpt-3.5-turbo"; str "gpt-4"; str "gpt-4o"].
Proof.
  split; [reflexivity|]. split; [reflexivity|].
  apply (fetchModelsForProvider_hosted_list (serving mixed_catalogue) hosted None);
    reflexivity.
Defined.

(** The lister always completes normally. *)
Lemma fetchModelsForProvider_total
    (fetch : Fetch) (settings : Settings) (config : option ProviderConfig) :
  exists result, fetchModelsForProvider fetch settings config = Normal result.
Proof.
  unfold fetchModelsForProvider, list_ollama, list_openai, list_compatible.
  destruct (is_str (provider settings) "ollama").
  { destruct (bind _ _); simpl; eauto. }
  destruct (is_str (provider settings) "openai").
  { destruct (truthy (apiKey settings)); simpl; eauto.
    destruct (bind _ _); simpl; eauto. }
  destruct (is_str (provider settings) "openai_compatible"); eauto.
  destruct (truthy (apiUrl settings)); simpl; eauto.
  destruct (truthy (apiKey settings)); simpl; eauto.
  destruct (bind _ _); simpl; eauto.
Qed.

(** C2 (as the code has it).  The lister never throws.  When its
    listing call rejects, or the 2xx response cannot be decoded, it
    returns [{ models: [] }]; when the call answers with a non-2xx
    response it returns a structured error that carries code 500, which
    for the hosted and the compatible providers is [{ code, message }]. *)
Theorem fetchModelsForProvider_transport
    (fetch : Fetch) (settings : Settings) (config : option ProviderConfig)
    (request : Request) :
  listing_request settings config = Some request ->
  (exists result, fetchModelsForProvider fetch settings config = Normal result)
  /\ (forall e, fetch request = Throw e ->
        fetchModelsForProvider fetch settings config = Normal (Models []))
  /\ (forall response e,
        fetch request = Normal response -> ok response = true ->
        json response = Throw e ->
        fetchModelsForProvider fetch settings config = Normal (Models []))
  /\ (forall response,
        fetch request = Normal response -> ok response = false ->
        exists result,
          fetchModelsForProvider fetch settings config = Normal result
          /\ is_error_500 result = true
          /\ (is_str (provider settings) "ollama" = false ->
              exists message, result = ListError 500 message)).
Proof.
  intros Hreq. split; [apply fetchModelsForProvider_total|].
  revert Hreq. unfold fetchModelsForProvider, listing_request.
  destruct (is_str (provider settings) "ollama").
  { destruct config as [c|]; simpl; [|discriminate].
    intros H; injection H as <-. unfold list_ollama; simpl.
    repeat split.
    - intros e Hf. now rewrite Hf.
    - intros response e Hf Hok Hj. rewrite Hf; simpl. rewrite Hok; simpl.
      now rewrite Hj.
    - intros response Hf Hok. rewrite Hf; simpl. rewrite Hok; simpl.
      eexists. split; [reflexivity|]. split; [reflexivity | discriminate]. }
  destruct (is_str (provider settings) "openai").
  { unfold list_openai.
    destruct (truthy (apiKey settings)); simpl; [|discriminate].
    intros H; injection H as <-. repeat split.
    - intros e Hf. now rewrite Hf.
    - intros response e Hf Hok Hj. rewrite Hf; simpl. rewrite Hok; simpl.
      now rewrite Hj.
    - intros response Hf Hok. rewrite Hf; simpl. rewrite Hok; simpl.
      eexists. split; [reflexivity|]. split; [reflexivity|].
      intros _. eexists; reflexivity. }
  destruct (is_str (provider settings) "openai_compatible"); [|discriminate].
  unfold list_compatible.
  destruct (truthy (apiUrl settings)); simpl; [|discriminate].
  destruct (truthy (apiKey settings)); simpl; [|discriminate].
  intros H; injection H as <-. repeat split.
  - intros e Hf. now rewrite Hf.
  - intros response e Hf Hok Hj. rewrite Hf; simpl. rewrite Hok; simpl.
    now rewrite Hj.
  - intros response Hf Hok. rewrite Hf; simpl. rewrite Hok; simpl.
    eexists. split; [reflexivity|]. split; [reflexivity|].
    intros _. eexists; reflexivity.
Qed.

Lemma fetchModelsForProvider_transport_witness :
  fetchModelsForProvider refusing compatible None = Normal (Models []).
Proof.
  apply (proj1 (proj2 (fetchModelsForProvider_transport refusing compatible None
           {| url := str "http://llm.example/v1"; method := None;
              headers := bearer_headers (Some (str "secret"));
              body := None |} eq_refl))
           (str "ECONNREFUSED")).
  reflexivity.
Defined.

(** C2 (as stated) fails: with the hosted provider and a transport that
    answers 503, the lister returns a structured error, not
    [{ models: [] }]. *)
Lemma fetchModelsForProvider_non_2xx :
  fetchModelsForProvider unavailable hosted None
    = Normal (ListError 500 (str "Failed to fetch models from OpenAI"))
  /\ fetchModelsForProvider unavailable hosted None <> Normal (Models []).
Proof. split; [reflexivity | discriminate]. Qed.

End ListerTransport.

(** ** The command generator *)

Module GeneratorFacts.
Import JsString JsStringFacts Js Http Store Registry Generator Samples.
Import SettingsFacts.

Lemma tbind_sent {A B} (m : Traced A) (k : A -> Traced B) :
  exists rest, fst (tbind m k) = fst m ++ rest.
Proof.
  destruct m as [sent [a|e]]; simpl.
  - destruct (k a) as [sent' r]. now exists sent'.
  - exists []. now rewrite app_nil_r.
Qed.

(** The requests of [tbind m k] begin with those of [m]. *)
Ltac sent_first rest :=
  match goal with
  | |- context [fst (tbind ?m ?k)] =>
      let E := fresh "E" in
      destruct (tbind_sent m k) as (rest & E); rewrite E; clear E
  end.

Section Dispatch.

Variable AI_SYSTEM_PROMPT : option jsstring.
Variable config : ProviderConfig.
Variable fetch : Fetch.

(** The request that [generateOllamaCommand] sends. *)
Lemma generateOllamaCommand_request (prompt : jsstring) (settings : Settings) :
  exists rest,
    fst (generateOllamaCommand AI_SYSTEM_PROMPT config fetch prompt settings)
    = {| url :=
           dropEndWhile is_slash
             (if truthy (apiUrl settings) then show (apiUrl settings)
              else str "http://localhost:11434") ++ str "/api/chat";
         method := Some POST;
         headers := config_headers config;
         body :=
           Some (OllamaChat (model settings)
                   [ {| role := str "system";
                        content := SYSTEM_PROMPT AI_SYSTEM_PROMPT |};
                     {| role := str "user"; content := prompt |} ]
                   false
                   {| opt_temperature := QArith_base.Qmake 3 10;
                      num_predict := 150;
                      opt_stop := [[LF; LF]] |}) |} :: rest.
Proof.
  unfold generateOllamaCommand. sent_first rest. simpl. eauto.
Qed.

(** C3 (what the code does).  With the compatible provider configured,
    the first request that [generateCommand] sends is the one of the
    local provider's path: its body has the local chat shape, with
    [stream] off and temperature, length and stop sequence under
    [options], and no [max_tokens]; it is addressed to [/api/chat]
    under the configured base URL.  The two message turns are the
    system instruction and the user's prompt. *)
Theorem generateCommand_compatible_first_request
    (prompt : jsstring) (settings : Settings) :
  enabled settings = true ->
  truthy (model settings) = true ->
  is_str (provider settings) "openai_compatible" = true ->
  exists rest,
    fst (generateCommand AI_SYSTEM_PROMPT config fetch prompt (Some settings))
    = {| url :=
           dropEndWhile is_slash
             (if truthy (apiUrl settings) then show (apiUrl settings)
              else str "http://localhost:11434") ++ str "/api/chat";
         method := Some POST;
         headers := config_headers config;
         body :=
           Some (OllamaChat (model settings)
                   [ {| role := str "system";
                        content := SYSTEM_PROMPT AI_SYSTEM_PROMPT |};
                     {| role := str "user"; content := prompt |} ]
                   false
                   {| opt_temperature := QArith_base.Qmake 3 10;
                      num_predict := 150;
                      opt_stop := [[LF; LF]] |}) |} :: rest.
Proof.
  intros He Hm Hp. unfold generateCommand, findOne. rewrite He, Hm. simpl negb.
  assert (Hprov : provider settings = Some (str "openai_compatible")).
  { now apply strict_eq_spec. }
  assert (Ht : truthy (provider settings) = true) by now rewrite Hprov.
  rewrite Ht. simpl orb. cbv iota.
  sent_first rest1.
  unfold first_dispatch. rewrite Hp.
  replace (is_str (provider settings) "openai") with false
    by (now rewrite Hprov).
  sent_first rest2.
  destruct (generateOllamaCommand_request prompt settings) as (rest3 & ->).
  simpl. eauto.
Qed.

(** The request that [generateOpenAICommand] sends when a credential
    is stored. *)
Lemma generateOpenAICommand_request (prompt : jsstring) (settings : Settings) :
  truthy (apiKey settings) = true ->
  exists rest,
    fst (generateOpenAICommand AI_SYSTEM_PROMPT config fetch prompt settings)
    = {| url := str "https://api.openai.com/v1/chat/completions";
         method := Some POST;
         headers := config_headers config;
         body :=
           Some (ChatCompletions (model settings)
                   [ {| role := str "system";
                        content := SYSTEM_PROMPT AI_SYSTEM_PROMPT |};
                     {| role := str "user"; content := prompt |} ]
                   150 (QArith_base.Qmake 3 10) [[LF; LF]]) |} :: rest.
Proof.
  intros Hk. unfold generateOpenAICommand. rewrite Hk. simpl negb. cbv iota.
  sent_first rest. simpl. eauto.
Qed.

(** The second computation of [command] (lines 269-271) names the
    hosted builder for the compatible provider, and throws on its
    argument list before that builder runs. *)
Lemma second_dispatch_compatible (prompt : jsstring) (settings : Settings) :
  is_str (provider settings) "openai_compatible" = true ->
  second_dispatch AI_SYSTEM_PROMPT config fetch prompt settings
  = tbind (lift systemPrompt)
      (fun _ => generateOpenAICommand AI_SYSTEM_PROMPT config fetch prompt settings)
  /\ second_dispatch AI_SYSTEM_PROMPT config fetch prompt settings
     = ([], Throw (reference_error "systemPrompt")).
Proof.
  intros Hp. unfold second_dispatch.
  replace (is_str (provider settings) "ollama") with false.
  - split; reflexivity.
  - apply strict_eq_spec in Hp. now rewrite Hp.
Qed.

(** When the first request of the compatible provider is refused, the
    generator throws and the second computation is never reached. *)
Lemma generateCommand_compatible_refused
    (prompt : jsstring) (settings : Settings) (e : jsstring) :
  enabled settings = true ->
  truthy (model settings) = true ->
  is_str (provider settings) "openai_compatible" = true ->
  (forall request, fetch request = Throw e) ->
  exists request,
    generateCommand AI_SYSTEM_PROMPT config fetch prompt (Some settings)
    = ([request], Throw e)
    /\ forall m ms k t s, body request <> Some (ChatCompletions m ms k t s).
Proof.
  intros He Hm Hp Hf. unfold generateCommand, findOne. rewrite He, Hm.
  assert (Hprov : provider settings = Some (str "openai_compatible")).
  { now apply strict_eq_spec. }
  assert (Ht : truthy (provider settings) = true) by now rewrite Hprov.
  rewrite Ht. simpl negb. simpl orb. cbv iota.
  unfold first_dispatch. rewrite Hp.
  replace (is_str (provider settings) "openai") with false
    by (now rewrite Hprov).
  unfold generateOllamaCommand, send. rewrite Hf. simpl.
  eexists. split; [reflexivity|]. simpl. discriminate.
Qed.

End Dispatch.

Lemma generateCommand_compatible_first_request_witness :
  exists rest,
    fst (generateCommand None plain_config refusing (str "list files")
           (Some compatible))
    = {| url := str "http://llm.example/v1/api/chat";
         method := Some POST;
         headers := [(CONTENT_TYPE, APPLICATION_JSON)];
         body :=
           Some (OllamaChat (Some (str "mistral"))
                   [ {| role := str "system"; content := DEFAULT_SYSTEM_PROMPT |};
                     {| role := str "user"; content := str "list files" |} ]
                   false
                   {| opt_temperature := QArith_base.Qmake 3 10;
                      num_predict := 150;
                      opt_stop := [[LF; LF]] |}) |} :: rest.
Proof.
  apply (generateCommand_compatible_first_request None plain_config refusing
           (str "list files") compatible); reflexivity.
Defined.

End GeneratorFacts.

(** ** The normaliser on the sample completions of the specification *)

Module NormalizerExamples.
Import JsString Normalizer.

Example fenced_command :
  parseAIResponse
    (Some (str "```bash" ++ [LF] ++ str "ls -la" ++ [LF] ++ str "```"))
  = str "ls -la".
Proof. vm_compute. reflexivity. Qed.

Example labelled_command :
  parseAIResponse (Some (str "Response: free -h")) = str "free -h".
Proof. vm_compute. reflexivity. Qed.

Example echoed_user_turn :
  parseAIResponse (Some (str "User: hello")) = NOT_PROPERLY.
Proof. vm_compute. reflexivity. Qed.

Example no_text :
  parseAIResponse (Some []) = NO_COMMAND /\ parseAIResponse None = NO_COMMAND.
Proof. split; reflexivity. Qed.

Example two_plain_lines :
  parseAIResponse (Some (str "ls -la" ++ [LF] ++ str "df -h")) = str "ls -la".
Proof. vm_compute. reflexivity. Qed.

(** The alternative [sh] is tried before [shell], so the tag [shell]
    loses only its first two letters. *)
Example shell_tag :
  parseAIResponse (Some (str "```shell" ++ [LF] ++ str "ls")) = str "ell".
Proof. vm_compute. reflexivity. Qed.

(** A carriage return before the line feed defeats the label pattern:
    [.] does not cross it and the group must reach a line feed or the
    end. *)
Example labelled_crlf :
  parseAIResponse (Some (str "Response: ls" ++ [CR; LF])) = NOT_PROPERLY.
Proof. vm_compute. reflexivity. Qed.

End NormalizerExamples.

(** ** Further properties of the response normaliser *)

Module NormalizerMore.
Import JsString JsStringFacts Normalizer NormalizerFacts Vocabulary.

(** *** Fence stripping *)

Lemma fence_lang_len_none (s : jsstring) :
  startsWith fence s = false -> fence_lang_len s = None.
Proof. unfold fence_lang_len. now intros ->. Qed.

Lemma fence_lang_len_some (s : jsstring) (k : nat) :
  fence_lang_len s = Some k -> startsWith fence s = true /\ 3 <= k.
Proof.
  unfold fence_lang_len. destruct (startsWith fence s); [|discriminate].
  intros H; injection H as <-. split; [reflexivity | lia].
Qed.

Lemma remove_all_skip (mlen : jsstring -> option nat) (k : nat) (s : jsstring) :
  remove_all mlen k s = remove_all mlen 0 (skipn k s).
Proof.
  revert s; induction k as [|k IH]; intros s; [reflexivity|].
  destruct s as [|c r]; [reflexivity|]. simpl. apply IH.
Qed.

Lemma first_pass_step (c : codeunit) (r : jsstring) :
  (exists n, n <= List.length r /\
     remove_all fence_lang_len 0 (c :: r)
     = remove_all fence_lang_len 0 (skipn n r)
     /\ startsWith fence (c :: r) = true)
  \/ (remove_all fence_lang_len 0 (c :: r)
      = c :: remove_all fence_lang_len 0 r
      /\ startsWith fence (c :: r) = false).
Proof.
  cbn [remove_all].
  destruct (fence_lang_len (c :: r)) as [k|] eqn:E.
  - destruct (fence_lang_len_some _ _ E) as [Hf Hk].
    destruct k as [|n]; [lia|]. left.
    destruct (Nat.le_gt_cases n (List.length r)) as [Hn|Hn].
    + exists n. split; [exact Hn|]. split; [apply remove_all_skip | exact Hf].
    + exists (List.length r). split; [lia|]. split; [|exact Hf].
      rewrite (remove_all_skip fence_lang_len n r).
      now rewrite !skipn_all2 by lia.
  - right. split; [reflexivity|].
    unfold fence_lang_len in E. now destruct (startsWith fence (c :: r)).
Qed.

Lemma first_pass_head (s : jsstring) :
  startsWith [backtick] (remove_all fence_lang_len 0 s) = true ->
  startsWith [backtick] s = true.
Proof.
  destruct s as [|c r]; [auto|].
  destruct (first_pass_step c r) as [(n & _ & _ & Hf) | (-> & _)].
  - intros _. unfold fence in Hf. cbn [startsWith] in *.
    apply andb_true_iff in Hf. destruct Hf as [-> _]. reflexivity.
  - auto.
Qed.

Lemma first_pass_head2 (s : jsstring) :
  startsWith [backtick; backtick] (remove_all fence_lang_len 0 s) = true ->
  startsWith [backtick; backtick] s = true.
Proof.
  destruct s as [|c r]; [auto|].
  destruct (first_pass_step c r) as [(n & _ & _ & Hf) | (-> & _)].
  - intros _. unfold fence in Hf. cbn [startsWith] in *.
    apply andb_true_iff in Hf. destruct Hf as [-> Hf].
    destruct r as [|d r']; [discriminate|].
    apply andb_true_iff in Hf. destruct Hf as [-> _]. reflexivity.
  - cbn [startsWith]. intros H. apply andb_true_iff in H.
    destruct H as [-> H]. simpl.
    pose proof (first_pass_head r) as Hr. cbn [startsWith] in Hr.
    destruct (remove_all fence_lang_len 0 r) as [|d t]; [discriminate|].
    rewrite andb_true_r in H. specialize (Hr ltac:(now rewrite H)).
    destruct r as [|d' r']; [discriminate|]. exact Hr.
Qed.

Lemma first_pass_no_fence (s : jsstring) :
  includes fence (remove_all fence_lang_len 0 s) = false.
Proof.
  remember (List.length s) as n eqn:Hn.
  assert (Hle : List.length s <= n) by lia. clear Hn.
  revert s Hle; induction n as [|n IH]; intros s Hle.
  - destruct s; [reflexivity | simpl in Hle; lia].
  - destruct s as [|c r]; [reflexivity|]. simpl in Hle.
    destruct (first_pass_step c r) as [(k & Hk & -> & _) | (-> & Hf)].
    + apply IH. rewrite length_skipn. lia.
    + cbn [includes]. rewrite (IH r) by lia. rewrite orb_false_r.
      destruct (startsWith fence (c :: remove_all fence_lang_len 0 r)) eqn:E;
        [|reflexivity].
      unfold fence in E, Hf. cbn [startsWith] in E, Hf.
      apply andb_true_iff in E. destruct E as [Ec E].
      rewrite Ec in Hf. rewrite andb_true_l in Hf.
      pose proof (first_pass_head2 r) as H2. cbn [startsWith] in H2.
      destruct (remove_all fence_lang_len 0 r) as [|d t]; [discriminate|].
      destruct t as [|d2 t]; [now rewrite andb_false_r in E|].
      assert (Ht : N.eqb backtick d && (N.eqb backtick d2 && true) = true).
      { apply andb_true_iff in E. destruct E as [-> E].
        apply andb_true_iff in E. destruct E as [-> _]. reflexivity. }
      specialize (H2 Ht). destruct r as [|e1 [|e2 r']]; try discriminate.
      * now rewrite andb_false_r in H2.
      * rewrite <- Hf. rewrite <- H2.
        destruct (N.eqb backtick e1), (N.eqb backtick e2); reflexivity.
Qed.

(** X1.  After fence stripping no triple backtick is left in the text,
    whatever the input; the first of the two replacements already
    removes them all, so the second never changes anything. *)
Theorem strip_fences_no_fence (response : jsstring) :
  has_fence (strip_fences response) = false
  /\ strip_fences response = remove_all fence_lang_len 0 response.
Proof.
  assert (E : strip_fences response = remove_all fence_lang_len 0 response).
  { unfold strip_fences. apply remove_all_id.
    - intros t Ht. unfold fence_len. now rewrite Ht.
    - apply first_pass_no_fence. }
  split; [|exact E]. rewrite E. apply first_pass_no_fence.
Qed.


(** *** White space around the text *)

Lemma dropWhile_all (f : codeunit -> bool) (w : jsstring) :
  Forall (fun c => f c = true) w -> dropWhile f w = [].
Proof. induction 1 as [|c w Hc _ IH]; simpl; [auto | now rewrite Hc]. Qed.

Lemma dropEndWhile_all (f : codeunit -> bool) (w : jsstring) :
  Forall (fun c => f c = true) w -> dropEndWhile f w = [].
Proof. induction 1 as [|c w Hc _ IH]; simpl; [auto | now rewrite IH, Hc]. Qed.

Lemma dropWhile_suffix_all (f : codeunit -> bool) (s : jsstring) :
  exists u, s = u ++ dropWhile f s /\ Forall (fun c => f c = true) u.
Proof.
  induction s as [|c s (u & IH & Hu)]; simpl.
  - exists []. auto.
  - destruct (f c) eqn:E.
    + exists (c :: u). split; [simpl; now rewrite <- IH | now constructor].
    + exists []. auto.
Qed.

Lemma dropEndWhile_prefix_all (f : codeunit -> bool) (s : jsstring) :
  exists v, s = dropEndWhile f s ++ v /\ Forall (fun c => f c = true) v.
Proof.
  induction s as [|c s (v & IH & Hv)]; simpl.
  - exists []. auto.
  - destruct (dropEndWhile f s) as [|x r] eqn:E.
    + simpl in IH. destruct (f c) eqn:Fc.
      * exists (c :: s). split; [reflexivity|]. rewrite IH. now constructor.
      * exists s. split; [reflexivity|]. now rewrite IH.
    + exists v. split; [simpl in *; now rewrite <- IH | exact Hv].
Qed.

Lemma trim_decompose (x : jsstring) :
  exists u v, x = u ++ trim x ++ v /\ all_whitespace u /\ all_whitespace v.
Proof.
  unfold trim, all_whitespace.
  destruct (dropWhile_suffix_all is_whitespace x) as (u & Eu & Hu).
  destruct (dropEndWhile_prefix_all is_whitespace (dropWhile is_whitespace x))
    as (v & Ev & Hv).
  exists u, v. now rewrite <- Ev.
Qed.

Lemma dropEndWhile_app_all (f : codeunit -> bool) (a w : jsstring) :
  Forall (fun c => f c = true) w ->
  dropEndWhile f (a ++ w) = dropEndWhile f a.
Proof.
  intros Hw. induction a as [|c a IH]; simpl.
  - now apply dropEndWhile_all.
  - now rewrite IH.
Qed.

Lemma trim_app_ws (a w : jsstring) :
  all_whitespace w -> trim (a ++ w) = trim a.
Proof.
  intros Hw. unfold trim. induction a as [|c a IH]; simpl.
  - now rewrite (dropWhile_all _ _ Hw).
  - destruct (is_whitespace c); [exact IH|].
    exact (dropEndWhile_app_all is_whitespace (c :: a) w Hw).
Qed.

Lemma trim_ws_app (u s : jsstring) :
  all_whitespace u -> trim (u ++ s) = trim s.
Proof.
  intros Hu. unfold trim. induction Hu as [|c u Hc _ IH]; simpl; auto.
  now rewrite Hc.
Qed.

Lemma lines_of_ws_prefix (u s : jsstring) :
  all_whitespace u -> lines_of (u ++ s) = lines_of s.
Proof.
  intros Hu. induction Hu as [|c u Hc _ IH]; [reflexivity|].
  rewrite <- IH. unfold lines_of. cbn [app split_lines].
  destruct (split_lines_cons (u ++ s)) as (h & t & E). rewrite E.
  destruct (N.eqb c LF).
  - reflexivity.
  - cbn [map]. change (c :: h) with ([c] ++ h).
    now rewrite (trim_ws_app [c] h (Forall_cons _ Hc (Forall_nil _))).
Qed.

Lemma lines_of_all_ws (w : jsstring) : all_whitespace w -> lines_of w = [].
Proof.
  intros Hw. rewrite <- (app_nil_r w). now rewrite lines_of_ws_prefix.
Qed.

(** A trimmed line followed by white space is the only line of the
    text. *)
Lemma lines_of_line_ws (t : jsstring) :
  ~ In LF t -> trim t = t -> t <> [] ->
  forall v, all_whitespace v -> lines_of (t ++ v) = [t].
Proof.
  intros Hlf Ht Hne v.
  remember (List.length v) as n eqn:Hn.
  assert (Hle : List.length v <= n) by lia. clear Hn.
  revert v Hle. induction n as [|n IH]; intros v Hle Hv.
  - destruct v; [|simpl in Hle; lia].
    rewrite app_nil_r. unfold lines_of.
    rewrite (split_lines_single _ Hlf). cbn [map filter]. rewrite Ht.
    now destruct t.
  - destruct (in_dec N.eq_dec LF v) as [Hin|Hnin].
    + destruct (in_split _ _ Hin) as (v1 & v2 & ->).
      apply Forall_app in Hv. destruct Hv as [Hv1 Hv2].
      apply Forall_cons_iff in Hv2. destruct Hv2 as [_ Hv2].
      rewrite app_assoc, lines_of_app, (lines_of_all_ws _ Hv2), app_nil_r.
      apply IH; auto. rewrite length_app in Hle. cbn [List.length] in Hle.
      unfold codeunit in *. lia.
    + assert (Hall : ~ In LF (t ++ v)).
      { intros F. apply in_app_or in F. tauto. }
      unfold lines_of. rewrite (split_lines_single _ Hall). cbn [map filter].
      rewrite (trim_app_ws t v Hv), Ht. now destruct t.
Qed.

(** X2.  For a text that holds no fence and no role label, the
    normaliser returns the first non-blank line, trimmed, and the
    no-command placeholder when every line is blank. *)
Theorem parseAIResponse_clean_first_line (x : jsstring) :
  has_fence x = false -> has_role_label x = false ->
  parseAIResponse (Some x)
  = match lines_of x with
    | [] => NO_COMMAND
    | first :: _ => first
    end.
Proof.
  intros Hf Hl. destruct x as [|c r]; [reflexivity|].
  unfold parseAIResponse.
  rewrite (strip_fences_id _ Hf), (no_label_no_match _ Hl).
  destruct (no_label_starts _ Hl) as [-> ->].
  set (x := c :: r) in *.
  destruct (lines_of x) as [|l [|l2 ls]] eqn:E.
  - cbn [pick_line List.length Nat.ltb Nat.leb]. rewrite tidy_is_trim.
    destruct (trim x) as [|h t] eqn:T; [reflexivity|]. exfalso.
    assert (Hin : In h x) by (apply In_trim; rewrite T; now left).
    exact (lines_of_nonws x h Hin (trim_head _ _ _ T) E).
  - cbn [pick_line List.length Nat.ltb Nat.leb]. rewrite tidy_is_trim.
    assert (Hlen : Nat.ltb 1 (List.length (lines_of x)) = false)
      by now rewrite E.
    pose proof (single_line_no_LF x Hlen) as Hlf.
    destruct (trim_decompose x) as (u & v & Ex & Hu & Hv).
    assert (Hne : trim x <> []).
    { intros T. rewrite T in Ex. simpl in Ex.
      rewrite (lines_of_all_ws x) in E; [discriminate|].
      rewrite Ex. unfold all_whitespace. apply Forall_app. now split. }
    assert (E' : lines_of x = [trim x]).
    { rewrite Ex at 1. rewrite (lines_of_ws_prefix u _ Hu).
      apply lines_of_line_ws; auto. apply trim_idem. }
    rewrite E in E'. injection E' as ->.
    now destruct (trim x).
  - assert (Hin : In l (lines_of x)) by (rewrite E; now left).
    destruct (lines_of_member _ _ Hin) as (Hne & Ht & _ & Hi).
    destruct (no_label_starts _ (no_label_infix _ _ Hi Hl)) as [Hu Hr].
    unfold pick_line. cbn [List.length Nat.ltb Nat.leb find].
    rewrite Hu, Hr. cbn [negb andb].
    destruct l as [|a l']; [congruence|]. cbn [nonempty].
    now rewrite tidy_is_trim, Ht.
Qed.

Lemma parseAIResponse_clean_first_line_witness :
  has_fence (str "  " ++ [LF] ++ str " ls -la " ++ [LF] ++ str "pwd") = false
  /\ has_role_label (str "  " ++ [LF] ++ str " ls -la " ++ [LF] ++ str "pwd") = false
  /\ parseAIResponse (Some (str "  " ++ [LF] ++ str " ls -la " ++ [LF] ++ str "pwd"))
     = str "ls -la".
Proof.
  split; [reflexivity|]. split; [reflexivity|].
  apply (parseAIResponse_clean_first_line
           (str "  " ++ [LF] ++ str " ls -la " ++ [LF] ++ str "pwd"));
    reflexivity.
Defined.

(** X3.  The normaliser returns the empty string only through the
    label rule: a text was given, the ["Response:"] pattern matched
    after fence stripping, and what it captured was white space. *)
Theorem parseAIResponse_empty_only_label (response : option jsstring) :
  parseAIResponse response = [] ->
  exists r group1,
    response = Some r
    /\ responseMatch (strip_fences r) = Some group1
    /\ trim group1 = [].
Proof.
  destruct response as [[|c r]|]; try discriminate.
  unfold parseAIResponse. set (clean := strip_fences (c :: r)).
  destruct (responseMatch clean) as [g|] eqn:M.
  - intros H. exists (c :: r), g. rewrite tidy_is_trim in H. auto.
  - destruct (starts_user clean); [discriminate|].
    destruct (pick_line (lines_of clean)) as [cmd|] eqn:P.
    + intros ->. exfalso.
      destruct (pick_line_some _ _ P) as (l & Hin & _ & _ & E).
      destruct (lines_of_member _ _ Hin) as (Hne & Ht & _ & _).
      rewrite tidy_is_trim, Ht in E. congruence.
    + destruct (starts_response clean); [discriminate|].
      destruct (tidy clean); discriminate.
Qed.

Lemma parseAIResponse_empty_only_label_witness :
  exists r group1,
    Some (str "Response: ```") = Some r
    /\ responseMatch (strip_fences r) = Some group1
    /\ trim group1 = [].
Proof.
  apply (parseAIResponse_empty_only_label (Some (str "Response: ```"))).
  reflexivity.
Defined.

(** *** The label rule *)

Lemma lazy_capture_whole (c : jsstring) :
  c <> [] -> no_line_terminator c -> lazy_capture c = Some c.
Proof.
  intros Hne Hc. induction Hc as [|a r Ha Hr IH]; [congruence|].
  cbn [lazy_capture]. rewrite Ha. destruct r as [|d r']; [reflexivity|].
  assert (Hd : N.eqb d LF = false).
  { apply Forall_inv in Hr. destruct (N.eqb_spec d LF) as [->|]; auto. }
  rewrite Hd, IH; [reflexivity | discriminate].
Qed.

Lemma after_label_skips (w c m : jsstring) (h : codeunit) (t : jsstring) :
  all_whitespace w -> c = h :: t -> is_whitespace h = false ->
  lazy_capture c = Some m -> after_label (w ++ c) = Some m.
Proof.
  intros Hw -> Hh Hm. induction Hw as [|a w Ha _ IH].
  - cbn [app after_label]. now rewrite Hh.
  - cbn [app after_label]. now rewrite Ha, IH.
Qed.

(** X5.  A command announced by ["Response:"] at the head of the text
    is returned as it is, whatever white space (line breaks included)
    separates it from the label: the command is any non-empty text
    without line terminator and without white space at its ends. *)
Theorem parseAIResponse_labelled (w c : jsstring) :
  has_fence (str "Response:" ++ w ++ c) = false ->
  all_whitespace w ->
  c <> [] -> trim c = c -> no_line_terminator c ->
  parseAIResponse (Some (str "Response:" ++ w ++ c)) = c.
Proof.
  intros Hf Hw Hne Ht Hc.
  destruct c as [|h t] eqn:Ec; [congruence|]. rewrite <- Ec in *.
  assert (Hh : is_whitespace h = false).
  { apply (trim_head c h t). now rewrite Ht. }
  assert (M : responseMatch (str "Response:" ++ w ++ c) = Some c).
  { change (str "Response:" ++ w ++ c) with
      (82 :: 101 :: 115 :: 112 :: 111 :: 110 :: 115 :: 101 :: 58 :: w ++ c)%N.
    cbn [responseMatch]. unfold response_at.
    change (matches_ci (str "Response:")
              (82 :: 101 :: 115 :: 112 :: 111 :: 110 :: 115 :: 101 :: 58 :: w ++ c)%N)
      with true.
    cbn [skipn].
    now rewrite (after_label_skips w c c h t Hw Ec Hh (lazy_capture_whole c Hne Hc)). }
  unfold parseAIResponse.
  change (str "Response:" ++ w ++ c) with
    (82 :: (101 :: 115 :: 112 :: 111 :: 110 :: 115 :: 101 :: 58 :: w ++ c))%N
    in *.
  rewrite (strip_fences_id _ Hf), M. now rewrite tidy_is_trim.
Qed.

Lemma parseAIResponse_labelled_witness :
  has_fence (str "Response:" ++ [32; 10; 9]%N ++ str "df -h | sort") = false
  /\ parseAIResponse (Some (str "Response:" ++ [32; 10; 9]%N ++ str "df -h | sort"))
     = str "df -h | sort".
Proof.
  split; [reflexivity|].
  apply (parseAIResponse_labelled [32; 10; 9]%N (str "df -h | sort")).
  - reflexivity.
  - repeat constructor.
  - discriminate.
  - reflexivity.
  - repeat constructor.
Defined.

(** X4 is [NormalizerFacts.parseAIResponse_line_unless_last_return]; a
    text on which its premise holds: *)
Lemma parseAIResponse_line_unless_last_return_witness :
  responseMatch
    (strip_fences (str "```" ++ [LF] ++ str " user: a" ++ [LF] ++ str "user: b"))
  = None
  /\ pick_line
       (lines_of
          (strip_fences
             (str "```" ++ [LF] ++ str " user: a" ++ [LF] ++ str "user: b")))
     = None
  /\ parseAIResponse
       (Some (str "```" ++ [LF] ++ str " user: a" ++ [LF] ++ str "user: b"))
     = tidy (strip_fences
               (str "```" ++ [LF] ++ str " user: a" ++ [LF] ++ str "user: b")).
Proof.
  apply (parseAIResponse_line_unless_last_return
           (str "```" ++ [LF] ++ str " user: a" ++ [LF] ++ str "user: b")).
  vm_compute. do 7 right. left. reflexivity.
Defined.

End NormalizerMore.

(** ** Further properties of the settings operations and the validator *)

Module SettingsMore.
Import JsString JsStringFacts Js Http Store SettingsOps SettingsFacts.
Import Registry Prober Vocabulary Samples.

Lemma override_twice {A} (new : option A) (old : A) :
  override new (override new old) = override new old.
Proof. now destruct new. Qed.

(** X6.  Sending the same update twice leaves the store as sending it
    once does. *)
Theorem updateAISettings_idempotent (u : Patch) (st : Store) :
  snd (updateAISettings u (snd (updateAISettings u st)))
  = snd (updateAISettings u st).
Proof.
  rewrite (updateAISettings_row u st).
  rewrite (updateAISettings_row u (Some _)). cbn [getOrCreateSettings fst].
  f_equal. unfold apply_patch; simpl. now rewrite !override_twice.
Qed.

(** X7 is [SettingsFacts.updateAISettings_normalised]; an update that
    sends an empty credential over a stored one: *)
Lemma updateAISettings_normalised_witness :
  credential_normalised
    {| id := 1; enabled := true; provider := Some (str "openai");
       model := Some (str "gpt-9"); apiKey := None; apiUrl := None |}.
Proof.
  apply (updateAISettings_normalised
           {| p_enabled := None; p_provider := None; p_model := None;
              p_apiUrl := None; p_apiKey := Some (Some []) |}
           (Some hosted)).
  - intros s H. injection H as <-. discriminate.
  - reflexivity.
Defined.

Lemma is_str_exclusive (p : option jsstring) (a b : string) :
  is_str p a = true -> is_str p b = true -> str a = str b.
Proof.
  unfold is_str. intros Ha Hb.
  apply strict_eq_spec in Ha, Hb. congruence.
Qed.

(** Case analysis on the provider: one of the three kinds, or none. *)
Lemma provider_cases (p : option jsstring) :
  (is_str p "openai" = true /\ is_str p "openai_compatible" = false
   /\ is_str p "ollama" = false)
  \/ (is_str p "openai" = false /\ is_str p "openai_compatible" = true
      /\ is_str p "ollama" = false)
  \/ (is_str p "openai" = false /\ is_str p "openai_compatible" = false
      /\ is_str p "ollama" = true)
  \/ (is_str p "openai" = false /\ is_str p "openai_compatible" = false
      /\ is_str p "ollama" = false).
Proof.
  destruct (is_str p "openai") eqn:A, (is_str p "openai_compatible") eqn:B,
    (is_str p "ollama") eqn:C; auto;
    try (pose proof (is_str_exclusive _ _ _ A B) as H; discriminate H);
    try (pose proof (is_str_exclusive _ _ _ A C) as H; discriminate H);
    try (pose proof (is_str_exclusive _ _ _ B C) as H; discriminate H);
    tauto.
Qed.

Section Validator.

Variable authHeaders : option jsstring -> Headers.
Variable normalizeUrl : option jsstring -> option jsstring.

(** X8.  The validator, applied to the contract the registry resolves,
    accepts exactly the configurations that the inline checks of the
    prober let through: the hosted kind with a credential, the
    compatible kind with a credential and a base URL, and the local kind
    always. *)
Theorem validateProviderConfig_accepts (settings : Settings) :
  validateProviderConfig settings
    (getProviderConfig authHeaders normalizeUrl settings) = None
  <-> ready settings = true.
Proof.
  unfold getProviderConfig, validateProviderConfig, ready.
  cbv zeta.
  destruct (provider_cases (provider settings))
    as [(A & B & C) | [(A & B & C) | [(A & B & C) | (A & B & C)]]];
    rewrite ?A, ?B, ?C;
    cbn [requiresApiKey requiresApiUrl andb negb].
  - destruct (truthy (apiKey settings)); simpl; split; congruence.
  - destruct (truthy (apiKey settings)), (truthy (apiUrl settings)); simpl;
      split; congruence.
  - split; auto.
  - split; discriminate.
Qed.

(** X9.  The validator answers "Unsupported provider" exactly when the
    provider is none of the three kinds. *)
Theorem validateProviderConfig_unsupported (settings : Settings) :
  validateProviderConfig settings
    (getProviderConfig authHeaders normalizeUrl settings)
  = Some {| code := 400; failure_message := str "Unsupported provider" |}
  <-> unrecognised settings = true.
Proof.
  unfold getProviderConfig, validateProviderConfig, unrecognised.
  cbv zeta.
  destruct (provider_cases (provider settings))
    as [(A & B & C) | [(A & B & C) | [(A & B & C) | (A & B & C)]]];
    rewrite ?A, ?B, ?C;
    cbn [requiresApiKey requiresApiUrl andb negb].
  - destruct (truthy (apiKey settings)); simpl; split; discriminate.
  - destruct (truthy (apiKey settings)), (truthy (apiUrl settings)); simpl;
      split; discriminate.
  - split; discriminate.
  - split; reflexivity.
Qed.

End Validator.

End SettingsMore.

(** ** Further properties of the connectivity prober *)

Module ProberMore.
Import JsString JsStringFacts Js Http Store Prober ProberFacts SettingsFacts.
Import Vocabulary Samples SettingsMore.

(** X10.  When the listing call answers with a 2xx response whose
    decoded body reports the configured model, the prober returns the
    success marker. *)
Theorem testAIConnection_success
    (fetch : Fetch) (settings : Settings) (m : jsstring)
    (response : Response) (body : Json) (ids : list (option jsstring)) :
  enabled settings = true ->
  model settings = Some m ->
  m <> [] ->
  ready settings = true ->
  fetch (listing_request settings) = Normal response ->
  ok response = true ->
  json response = Normal body ->
  listed settings body = Some ids ->
  In (Some m) ids ->
  testAIConnection fetch (Some settings)
  = Normal (Success (str "Connection test successful")).
Proof.
  intros He Hm Hne Hr Hf Hok Hj Hl Hin.
  rewrite (testAIConnection_ready fetch settings m He Hm Hne Hr).
  rewrite (probe_ready fetch settings Hr), Hf, Hok, Hj, Hl. simpl negb. cbv iota.
  rewrite Hm.
  replace (existsb (strict_eq (Some m)) ids) with true; [reflexivity|].
  symmetry. apply existsb_exists. exists (Some m). split; [exact Hin|].
  now apply strict_eq_spec.
Qed.

Lemma testAIConnection_success_witness :
  testAIConnection answering
    (Some {| id := 1; enabled := true; provider := Some (str "openai");
             model := Some (str "gpt-4"); apiKey := Some (str "sk-test");
             apiUrl := None |})
  = Normal (Success (str "Connection test successful")).
Proof.
  apply (testAIConnection_success answering _ (str "gpt-4")
           {| ok := true; status := 200; json := Normal catalogue |}
           catalogue [Some (str "gpt-4")]);
    try reflexivity.
  - discriminate.
  - now left.
Defined.

(** X11.  When the listing call answers with a non-2xx response, the
    prober returns a structured error with code 500 whose message ends
    with the status in decimal; the local kind is announced as "Ollama
    API error", the hosted and the compatible kinds as "OpenAI API
    error". *)
Theorem testAIConnection_non_2xx
    (fetch : Fetch) (settings : Settings) (m : jsstring) (response : Response) :
  enabled settings = true ->
  model settings = Some m ->
  m <> [] ->
  ready settings = true ->
  fetch (listing_request settings) = Normal response ->
  ok response = false ->
  testAIConnection fetch (Some settings)
  = Normal (Failed 500
              ((if is_str (provider settings) "ollama"
                then str "Ollama API error: "
                else str "OpenAI API error: ") ++ of_N (status response))).
Proof.
  intros He Hm Hne Hr Hf Hok.
  rewrite (testAIConnection_ready fetch settings m He Hm Hne Hr).
  now rewrite (probe_ready fetch settings Hr), Hf, Hok.
Qed.

Lemma testAIConnection_non_2xx_witness :
  testAIConnection unavailable (Some compatible)
  = Normal (Failed 500 (str "OpenAI API error: 503")).
Proof.
  apply (testAIConnection_non_2xx unavailable compatible (str "mistral")
           {| ok := false; status := 503;
              json := Throw (str "Unexpected end of JSON input") |});
    try reflexivity.
  discriminate.
Defined.

(** X12.  For a provider that is none of the three kinds, the prober of
    an enabled configuration with a model reports success, whatever the
    transport would do. *)
Theorem testAIConnection_unrecognised (fetch : Fetch) (settings : Settings) :
  enabled settings = true ->
  truthy (provider settings) = true ->
  truthy (model settings) = true ->
  unrecognised settings = true ->
  testAIConnection fetch (Some settings)
  = Normal (Success (str "Connection test successful")).
Proof.
  intros He Hp Hm Hu. unfold testAIConnection, findOne.
  rewrite He, Hp, Hm. simpl negb. cbv iota.
  unfold unrecognised in Hu. rewrite !andb_true_iff, !negb_true_iff in Hu.
  destruct Hu as [[H1 H2] H3]. unfold probe. now rewrite H1, H2, H3.
Qed.

Lemma testAIConnection_unrecognised_witness :
  testAIConnection refusing
    (Some {| id := 1; enabled := true; provider := Some (str "anthropic");
             model := Some (str "opus"); apiKey := None; apiUrl := None |})
  = Normal (Success (str "Connection test successful")).
Proof.
  apply (testAIConnection_unrecognised refusing); reflexivity.
Defined.

Lemma probe_not_ready (fetch1 fetch2 : Fetch) (settings : Settings) :
  ready settings = false -> probe fetch1 settings = probe fetch2 settings.
Proof.
  unfold ready, probe.
  destruct (provider_cases (provider settings))
    as [(A & B & C) | [(A & B & C) | [(A & B & C) | (A & B & C)]]];
    rewrite ?A, ?B, ?C.
  - intros H. unfold probe_openai. now rewrite H.
  - intros H. unfold probe_compatible.
    destruct (truthy (apiUrl settings)); [|reflexivity].
    simpl in H. now rewrite H.
  - discriminate.
  - reflexivity.
Qed.

(** X13.  The prober consults the transport only for an enabled
    configuration with a model whose provider is one of the three kinds
    and has the settings that kind needs: if its answer differs between
    two transports, the configuration is such a one. *)
Theorem testAIConnection_transport_only_when_ready
    (fetch1 fetch2 : Fetch) (st : Store) :
  testAIConnection fetch1 st <> testAIConnection fetch2 st ->
  exists settings,
    st = Some settings
    /\ enabled settings = true
    /\ truthy (model settings) = true
    /\ ready settings = true.
Proof.
  unfold testAIConnection, findOne. destruct st as [settings|]; [|congruence].
  destruct (enabled settings) eqn:He; [|simpl; congruence].
  destruct (truthy (provider settings)); [|simpl; congruence].
  destruct (truthy (model settings)) eqn:Hm; [|simpl; congruence].
  simpl negb. cbv iota. intros H.
  exists settings. split; [reflexivity|]. split; [exact He|].
  split; [exact Hm|].
  destruct (ready settings) eqn:R; [reflexivity|]. exfalso. apply H.
  now rewrite (probe_not_ready fetch1 fetch2 settings R).
Qed.

Lemma testAIConnection_transport_only_when_ready_witness :
  exists settings,
    Some hosted = Some settings
    /\ enabled settings = true
    /\ truthy (model settings) = true
    /\ ready settings = true.
Proof.
  apply (testAIConnection_transport_only_when_ready answering refusing
           (Some hosted)).
  intros H. vm_compute in H. discriminate H.
Defined.

End ProberMore.

(** ** Further properties of the model lister *)

Module ListerMore.
Import JsString JsStringFacts Js Http Store Registry Lister ListerFacts.
Import SettingsFacts Vocabulary Samples SettingsMore.

Lemma insert_perm (x : jsstring) (l : list jsstring) :
  Permutation (insert x l) (x :: l).
Proof.
  induction l as [|y l IH]; simpl; [reflexivity|].
  destruct (leb x y); [reflexivity|].
  rewrite IH. apply perm_swap.
Qed.

Lemma sort_perm (l : list jsstring) : Permutation (sort l) l.
Proof.
  induction l as [|x l IH]; simpl; [reflexivity|].
  rewrite insert_perm. now constructor.
Qed.

Lemma chat_model_ids_all (entries : list ModelEntry) (ids : list jsstring) :
  map entry_id entries = map Some ids ->
  chat_model_ids entries = Normal (filter is_chat_model ids).
Proof.
  revert ids; induction entries as [|e entries IH]; intros [|i ids]; simpl;
    try discriminate; [reflexivity|].
  intros H. injection H as -> H. simpl. rewrite (IH ids H). simpl.
  now destruct (is_chat_model i).
Qed.

Lemma chat_model_ids_missing (entries : list ModelEntry) (e : ModelEntry) :
  In e entries -> entry_id e = None ->
  exists message, chat_model_ids entries = Throw message.
Proof.
  intros Hin He. induction entries as [|x entries IH]; [destruct Hin|].
  simpl. destruct Hin as [->|Hin].
  - rewrite He. simpl. eauto.
  - destruct (entry_id x); simpl; [|eauto].
    destruct (IH Hin) as (msg & ->). simpl. eauto.
Qed.

Lemma hosted_listing_request
    (settings : Settings) (config : option ProviderConfig) (request : Request) :
  is_str (provider settings) "openai" = true ->
  listing_request settings config = Some request ->
  truthy (apiKey settings) = true
  /\ request = {| url := str "https://api.openai.com/v1/models";
                  method := None;
                  headers := bearer_headers (apiKey settings);
                  body := None |}.
Proof.
  intros P. unfold listing_request.
  rewrite (is_str_openai_not_ollama _ P), P.
  destruct (truthy (apiKey settings)); [|discriminate].
  intros H; injection H as <-. auto.
Qed.

(** X16.  For the hosted provider, when the listing call answers with
    a 2xx response whose entries all carry an identifier, the returned
    list is the ordered rearrangement of the identifiers that pass the
    chat-model filter: none is lost and repetitions are kept. *)
Theorem fetchModelsForProvider_hosted_complete
    (fetch : Fetch) (settings : Settings) (config : option ProviderConfig)
    (request : Request) (response : Response) (body : Json)
    (entries : list ModelEntry) (ids : list jsstring) :
  is_str (provider settings) "openai" = true ->
  listing_request settings config = Some request ->
  fetch request = Normal response ->
  ok response = true ->
  json response = Normal body ->
  Http.data body = Some entries ->
  map entry_id entries = map Some ids ->
  fetchModelsForProvider fetch settings config
  = Normal (Models (sort (filter is_chat_model ids)))
  /\ Permutation (sort (filter is_chat_model ids)) (filter is_chat_model ids).
Proof.
  intros P Hreq Hf Hok Hj Hd Hids.
  destruct (hosted_listing_request settings config request P Hreq) as [Hk ->].
  split; [|apply sort_perm].
  unfold fetchModelsForProvider.
  rewrite (is_str_openai_not_ollama _ P), P. unfold list_openai.
  rewrite Hk. simpl negb. cbv iota. rewrite Hf. simpl. rewrite Hok. simpl.
  rewrite Hj. simpl. rewrite Hd. simpl.
  now rewrite (chat_model_ids_all entries ids Hids).
Qed.

Lemma fetchModelsForProvider_hosted_complete_witness :
  fetchModelsForProvider
    (serving (listing [entry "gpt-4"; entry "gpt-4-edit"; entry "gpt-4"; entry "gpt-3.5"]))
    hosted None
  = Normal (Models [str "gpt-3.5"; str "gpt-4"; str "gpt-4"])
  /\ Permutation [str "gpt-3.5"; str "gpt-4"; str "gpt-4"]
       [str "gpt-4"; str "gpt-4"; str "gpt-3.5"].
Proof.
  apply (fetchModelsForProvider_hosted_complete
           (serving (listing [entry "gpt-4"; entry "gpt-4-edit"; entry "gpt-4";
                              entry "gpt-3.5"]))
           hosted None
           {| url := str "https://api.openai.com/v1/models"; method := None;
              headers := bearer_headers (apiKey hosted); body := None |}
           {| ok := true; status := 200;
              json := Normal (listing [entry "gpt-4"; entry "gpt-4-edit";
                                       entry "gpt-4"; entry "gpt-3.5"]) |}
           (listing [entry "gpt-4"; entry "gpt-4-edit"; entry "gpt-4";
                     entry "gpt-3.5"])
           [entry "gpt-4"; entry "gpt-4-edit"; entry "gpt-4"; entry "gpt-3.5"]
           [str "gpt-4"; str "gpt-4-edit"; str "gpt-4"; str "gpt-3.5"]);
    reflexivity.
Defined.

(** X18.  For the hosted provider, a single entry without identifier in
    a 2xx listing makes the lister return the empty list, whatever the
    other entries are. *)
Theorem fetchModelsForProvider_hosted_missing_id
    (fetch : Fetch) (settings : Settings) (config : option ProviderConfig)
    (request : Request) (response : Response) (body : Json)
    (entries : list ModelEntry) (e : ModelEntry) :
  is_str (provider settings) "openai" = true ->
  listing_request settings config = Some request ->
  fetch request = Normal response ->
  ok response = true ->
  json response = Normal body ->
  Http.data body = Some entries ->
  In e entries -> entry_id e = None ->
  fetchModelsForProvider fetch settings config = Normal (Models []).
Proof.
  intros P Hreq Hf Hok Hj Hd Hin He.
  destruct (hosted_listing_request settings config request P Hreq) as [Hk ->].
  unfold fetchModelsForProvider.
  rewrite (is_str_openai_not_ollama _ P), P. unfold list_openai.
  rewrite Hk. simpl negb. cbv iota. rewrite Hf. simpl. rewrite Hok. simpl.
  rewrite Hj. simpl. rewrite Hd. simpl.
  destruct (chat_model_ids_missing entries e Hin He) as (msg & ->).
  reflexivity.
Qed.

Lemma fetchModelsForProvider_hosted_missing_id_witness :
  fetchModelsForProvider
    (serving (listing [entry "gpt-4";
                       {| entry_id := None; entry_name := Some (str "gpt-x") |}]))
    hosted None
  = Normal (Models []).
Proof.
  apply (fetchModelsForProvider_hosted_missing_id
           (serving (listing [entry "gpt-4";
                       {| entry_id := None; entry_name := Some (str "gpt-x") |}]))
           hosted None
           {| url := str "https://api.openai.com/v1/models"; method := None;
              headers := bearer_headers (apiKey hosted); body := None |}
           {| ok := true; status := 200;
              json := Normal (listing [entry "gpt-4";
                       {| entry_id := None; entry_name := Some (str "gpt-x") |}]) |}
           (listing [entry "gpt-4";
                       {| entry_id := None; entry_name := Some (str "gpt-x") |}])
           [entry "gpt-4";
            {| entry_id := None; entry_name := Some (str "gpt-x") |}]
           {| entry_id := None; entry_name := Some (str "gpt-x") |});
    try reflexivity.
  right. now left.
Defined.

Lemma model_names_nonempty (data : Json) :
  Forall (fun n => n <> []) (model_names data).
Proof.
  unfold model_names. destruct (Http.models data) as [l|]; [|constructor].
  induction l as [|m l IH]; simpl; [constructor|].
  destruct (entry_name m) as [[|c n]|]; simpl; auto.
  constructor; [discriminate | exact IH].
Qed.

(** X15.  For the local and the compatible providers, a returned list
    of models never holds an empty name. *)
Theorem fetchModelsForProvider_names_nonempty
    (fetch : Fetch) (settings : Settings) (config : option ProviderConfig)
    (l : list jsstring) :
  is_str (provider settings) "ollama" = true
  \/ is_str (provider settings) "openai_compatible" = true ->
  fetchModelsForProvider fetch settings config = Normal (Models l) ->
  Forall (fun n => n <> []) l.
Proof.
  intros Hp. unfold fetchModelsForProvider.
  assert (Hnil : forall l0, Normal (Models []) = Normal (Models l0) ->
                            Forall (fun n : jsstring => n <> []) l0).
  { intros l0 H; injection H as <-. constructor. }
  assert (Hnames : forall data l0,
             Normal (Models (model_names data)) = Normal (Models l0) ->
             Forall (fun n : jsstring => n <> []) l0).
  { intros data l0 H; injection H as <-. apply model_names_nonempty. }
  destruct (provider_cases (provider settings))
    as [(A & B & C) | [(A & B & C) | [(A & B & C) | (A & B & C)]]];
    rewrite ?A, ?B, ?C in *; try (destruct Hp; discriminate).
  - unfold list_compatible.
    destruct (truthy (apiUrl settings)); simpl; [|discriminate].
    destruct (truthy (apiKey settings)); simpl; [|discriminate].
    destruct (fetch _) as [response|e]; simpl; [|apply Hnil].
    destruct (ok response); simpl; [|discriminate].
    destruct (json response) as [data|e]; simpl; [apply Hnames | apply Hnil].
  - unfold list_ollama. destruct config as [c|]; simpl; [|apply Hnil].
    destruct (fetch _) as [response|e]; simpl; [|apply Hnil].
    destruct (ok response); simpl; [|discriminate].
    destruct (json response) as [data|e]; simpl; [apply Hnames | apply Hnil].
Qed.

Lemma fetchModelsForProvider_names_nonempty_witness :
  Forall (fun n : jsstring => n <> []) [str "llama3"; str "phi"].
Proof.
  apply (fetchModelsForProvider_names_nonempty
           (serving {| data := None;
                       models := Some [ {| entry_id := None; entry_name := Some (str "llama3") |};
                                        {| entry_id := None; entry_name := Some [] |};
                                        {| entry_id := None; entry_name := None |};
                                        {| entry_id := None; entry_name := Some (str "phi") |} ];
                       choices := None; message := None; error := None |})
           compatible None).
  - right. reflexivity.
  - reflexivity.
Defined.

(** X19.  When the configuration is rejected before the listing call
    (no credential for the hosted kind, no base URL or credential for
    the compatible kind, no contract for the local kind, a provider that
    is none of the three), the lister's answer does not depend on the
    transport. *)
Theorem fetchModelsForProvider_no_request
    (fetch1 fetch2 : Fetch) (settings : Settings)
    (config : option ProviderConfig) :
  listing_request settings config = None ->
  fetchModelsForProvider fetch1 settings config
  = fetchModelsForProvider fetch2 settings config.
Proof.
  unfold listing_request, fetchModelsForProvider.
  destruct (is_str (provider settings) "ollama").
  { destruct config; [discriminate | reflexivity]. }
  destruct (is_str (provider settings) "openai").
  { unfold list_openai. destruct (truthy (apiKey settings));
      [discriminate | reflexivity]. }
  destruct (is_str (provider settings) "openai_compatible"); [|reflexivity].
  unfold list_compatible.
  destruct (truthy (apiUrl settings)); [|reflexivity].
  destruct (truthy (apiKey settings)); [discriminate | reflexivity].
Qed.

Lemma fetchModelsForProvider_no_request_witness :
  fetchModelsForProvider answering
    {| id := 1; enabled := true; provider := Some (str "openai");
       model := Some (str "gpt-4"); apiKey := None; apiUrl := None |} None
  = fetchModelsForProvider refusing
      {| id := 1; enabled := true; provider := Some (str "openai");
         model := Some (str "gpt-4"); apiKey := None; apiUrl := None |} None.
Proof.
  apply (fetchModelsForProvider_no_request answering refusing). reflexivity.
Defined.

Section Precedence.

Variable authHeaders : option jsstring -> Headers.
Variable normalizeUrl : option jsstring -> option jsstring.

(** X17.  For the compatible provider with neither base URL nor
    credential, the lister reports the missing base URL while the
    validator reports the missing credential: the two check the same
    settings in opposite order. *)
Theorem compatible_missing_both
    (fetch : Fetch) (settings : Settings) (config : option ProviderConfig) :
  is_str (provider settings) "openai_compatible" = true ->
  truthy (apiUrl settings) = false ->
  truthy (apiKey settings) = false ->
  fetchModelsForProvider fetch settings config
  = Normal (ListError 400 (str "OpenAI Compatible API URL not configured"))
  /\ validateProviderConfig settings
       (getProviderConfig authHeaders normalizeUrl settings)
     = Some {| code := 400;
               failure_message :=
                 str "OpenAI Compatible API key not configured" |}.
Proof.
  intros P Hu Hk.
  destruct (provider_cases (provider settings))
    as [(A & B & C) | [(A & B & C) | [(A & B & C) | (A & B & C)]]];
    try congruence.
  unfold fetchModelsForProvider, list_compatible, getProviderConfig,
    validateProviderConfig. cbv zeta.
  rewrite A, B, C, Hu, Hk. split; reflexivity.
Qed.

End Precedence.

Lemma compatible_missing_both_witness :
  fetchModelsForProvider refusing
    {| id := 1; enabled := true; provider := Some (str "openai_compatible");
       model := Some (str "m"); apiKey := None; apiUrl := Some [] |} None
  = Normal (ListError 400 (str "OpenAI Compatible API URL not configured"))
  /\ validateProviderConfig
       {| id := 1; enabled := true; provider := Some (str "openai_compatible");
          model := Some (str "m"); apiKey := None; apiUrl := Some [] |}
       (getProviderConfig (fun _ => []) (fun u => u)
          {| id := 1; enabled := true; provider := Some (str "openai_compatible");
             model := Some (str "m"); apiKey := None; apiUrl := Some [] |})
     = Some {| code := 400;
               failure_message :=
                 str "OpenAI Compatible API key not configured" |}.
Proof.
  apply (compatible_missing_both (fun _ => []) (fun u => u) refusing);
    reflexivity.
Defined.

End ListerMore.

(** ** Further properties of the command generator *)

Module GeneratorMore.
Import JsString JsStringFacts Js Http Store Registry Normalizer Generator.
Import SettingsFacts Vocabulary Samples SettingsMore.

Lemma is_str_truthy (p : option jsstring) (lit : string) :
  is_str p lit = true -> str lit <> [] -> truthy p = true.
Proof.
  unfold is_str. intros H Hne. apply strict_eq_spec in H. subst p.
  simpl. now destruct (str lit).
Qed.

Section Generation.

Variable AI_SYSTEM_PROMPT : option jsstring.
Variable config : ProviderConfig.
Variable fetch : Fetch.
Variable prompt : jsstring.

Abbreviation generate := (generateCommand AI_SYSTEM_PROMPT config fetch prompt).
Abbreviation hosted_rq := (hosted_request AI_SYSTEM_PROMPT config prompt).
Abbreviation local_rq := (local_request AI_SYSTEM_PROMPT config prompt).

(** The generator on an enabled configuration with provider and model
    is its two dispatches, one after the other. *)
Lemma generateCommand_enabled (settings : Settings) :
  enabled settings = true ->
  truthy (provider settings) = true ->
  truthy (model settings) = true ->
  generate (Some settings)
  = tbind (first_dispatch AI_SYSTEM_PROMPT config fetch prompt settings)
      (fun first =>
         match first with
         | inr early => ret early
         | inl _ =>
             tbind (second_dispatch AI_SYSTEM_PROMPT config fetch prompt settings)
               (fun command => ret (Command command))
         end).
Proof.
  intros He Hp Hm. unfold generateCommand, findOne. now rewrite He, Hp, Hm.
Qed.

(** X20.  A store without record, a disabled assistant, a missing
    provider or model, and a provider that is none of the three kinds
    are all answered with a structured error of code 400, and no
    request is sent. *)
Theorem generateCommand_rejects_before_sending (st : Store) :
  (forall settings,
      st = Some settings ->
      enabled settings = true ->
      truthy (provider settings) = true ->
      truthy (model settings) = true ->
      unrecognised settings = true) ->
  exists message, generate st = ([], Normal (GenError 400 message)).
Proof.
  intros H. unfold generateCommand, findOne.
  destruct st as [settings|]; [|eexists; reflexivity].
  specialize (H settings eq_refl).
  destruct (enabled settings); [|eexists; reflexivity].
  destruct (truthy (provider settings)); [|eexists; reflexivity].
  destruct (truthy (model settings)); [|eexists; reflexivity].
  specialize (H eq_refl eq_refl eq_refl).
  unfold unrecognised in H. rewrite !andb_true_iff, !negb_true_iff in H.
  destruct H as [[H1 H2] H3]. simpl negb. simpl orb. cbv iota.
  unfold first_dispatch. rewrite H1, H2, H3. eexists; reflexivity.
Qed.

(** X21.  For the hosted provider without credential the generator
    throws "OpenAI API key not configured" and sends nothing. *)
Theorem generateCommand_hosted_without_key (settings : Settings) :
  enabled settings = true ->
  truthy (model settings) = true ->
  is_str (provider settings) "openai" = true ->
  truthy (apiKey settings) = false ->
  generate (Some settings)
  = ([], Throw (str "OpenAI API key not configured")).
Proof.
  intros He Hm Hp Hk.
  rewrite generateCommand_enabled; auto;
    [|apply (is_str_truthy _ _ Hp); discriminate].
  unfold first_dispatch, generateOpenAICommand. now rewrite Hp, Hk.
Qed.

(** X27.  When the first request is refused by the transport, the
    generator throws the transport's error after that single request:
    the error is neither caught nor replaced.  This holds for the three
    provider kinds, the hosted one having its credential. *)
Theorem generateCommand_transport_error (settings : Settings) (e : jsstring) :
  enabled settings = true ->
  truthy (model settings) = true ->
  unrecognised settings = false ->
  (is_str (provider settings) "openai" = true ->
   truthy (apiKey settings) = true) ->
  fetch (first_request AI_SYSTEM_PROMPT config prompt settings) = Throw e ->
  generate (Some settings)
  = ([first_request AI_SYSTEM_PROMPT config prompt settings], Throw e).
Proof.
  intros He Hm Hu Hk Hf. unfold unrecognised in Hu. unfold first_request in *.
  destruct (provider_cases (provider settings))
    as [(A & B & C) | [(A & B & C) | [(A & B & C) | (A & B & C)]]];
    rewrite ?A, ?B, ?C in *; try discriminate.
  - rewrite generateCommand_enabled; auto;
      [|apply (is_str_truthy _ _ A); discriminate].
    unfold first_dispatch. rewrite A.
    unfold generateOpenAICommand. rewrite (Hk eq_refl). simpl negb. cbv iota.
    unfold send. fold (hosted_rq settings). now rewrite Hf.
  - rewrite generateCommand_enabled; auto;
      [|apply (is_str_truthy _ _ B); discriminate].
    unfold first_dispatch. rewrite A, B.
    unfold generateOllamaCommand, send. cbv zeta.
    fold (local_rq settings). now rewrite Hf.
  - rewrite generateCommand_enabled; auto;
      [|apply (is_str_truthy _ _ C); discriminate].
    unfold first_dispatch. rewrite A, B, C.
    unfold generateOllamaCommand, send. cbv zeta.
    fold (local_rq settings). now rewrite Hf.
Qed.



(** X25.  For the hosted provider, a non-2xx answer makes the generator
    throw "API error: " followed by the message of the provider's error
    body when there is one, and by the status when the body cannot be
    decoded. *)
Theorem generateCommand_hosted_non_2xx
    (settings : Settings) (response : Response) :
  enabled settings = true ->
  truthy (model settings) = true ->
  is_str (provider settings) "openai" = true ->
  truthy (apiKey settings) = true ->
  fetch (hosted_rq settings) = Normal response ->
  ok response = false ->
  (forall e, json response = Throw e ->
     generate (Some settings)
     = ([hosted_rq settings],
        Throw (str "API error: " ++ of_N (status response))))
  /\ (forall body message,
        json response = Normal body ->
        error body = Some {| error_message := Some message |} ->
        message <> [] ->
        generate (Some settings)
        = ([hosted_rq settings], Throw (str "API error: " ++ message))).
Proof.
  intros He Hm Hp Hk Hf Hok.
  assert (E : generate (Some settings)
              = ([hosted_rq settings],
                 Throw (str "API error: " ++ api_error_detail response))).
  { rewrite generateCommand_enabled; auto;
      [|apply (is_str_truthy _ _ Hp); discriminate].
    unfold first_dispatch. rewrite Hp.
    unfold generateOpenAICommand. rewrite Hk. simpl negb. cbv iota.
    unfold send. fold (hosted_rq settings). rewrite Hf.
    cbn [tbind]. now rewrite Hok. }
  rewrite E. unfold api_error_detail. split.
  - intros e ->. reflexivity.
  - intros body message -> -> Hne. simpl. now destruct message.
Qed.

(** X26.  For the local and the compatible providers, a non-2xx answer
    to the first request makes the generator throw "Ollama API error: "
    followed by the status. *)
Theorem generateCommand_local_non_2xx
    (settings : Settings) (response : Response) :
  enabled settings = true ->
  truthy (model settings) = true ->
  is_str (provider settings) "ollama" = true
  \/ is_str (provider settings) "openai_compatible" = true ->
  fetch (local_rq settings) = Normal response ->
  ok response = false ->
  generate (Some settings)
  = ([local_rq settings],
     Throw (str "Ollama API error: " ++ of_N (status response))).
Proof.
  intros He Hm Hp Hf Hok.
  assert (Ht : truthy (provider settings) = true).
  { destruct Hp as [Hp|Hp]; apply (is_str_truthy _ _ Hp); discriminate. }
  rewrite generateCommand_enabled; auto.
  unfold first_dispatch.
  destruct (provider_cases (provider settings))
    as [(A & B & C) | [(A & B & C) | [(A & B & C) | (A & B & C)]]];
    rewrite ?A, ?B, ?C in *; try (destruct Hp; discriminate);
    unfold generateOllamaCommand, send; cbv zeta; fold (local_rq settings);
    rewrite Hf; cbn [tbind]; now rewrite Hok.
Qed.

Lemma tbind_Forall {A B} (P : Request -> Prop) (m : Traced A)
    (k : A -> Traced B) :
  Forall P (fst m) -> (forall a, Forall P (fst (k a))) ->
  Forall P (fst (tbind m k)).
Proof.
  destruct m as [sent [a|e]]; simpl; intros Hm Hk; [|exact Hm].
  specialize (Hk a). destruct (k a) as [sent' r]. simpl in *.
  apply Forall_app. now split.
Qed.

Abbreviation well_formed := (well_formed_request AI_SYSTEM_PROMPT config prompt).

Lemma generateOpenAICommand_well_formed (settings : Settings) :
  Forall well_formed
    (fst (generateOpenAICommand AI_SYSTEM_PROMPT config fetch prompt settings)).
Proof.
  unfold generateOpenAICommand.
  destruct (negb (truthy (apiKey settings))); [constructor|].
  apply tbind_Forall.
  - repeat constructor. eexists. repeat split.
  - intros response. destruct (negb (ok response)); [constructor|].
    apply tbind_Forall; [constructor|]. intros data.
    apply tbind_Forall; [constructor|]. intros cs. constructor.
Qed.

Lemma generateOllamaCommand_well_formed (settings : Settings) :
  Forall well_formed
    (fst (generateOllamaCommand AI_SYSTEM_PROMPT config fetch prompt settings)).
Proof.
  unfold generateOllamaCommand. cbv zeta.
  apply tbind_Forall.
  - repeat constructor. eexists. repeat split.
  - intros response. destruct (negb (ok response)); [constructor|].
    apply tbind_Forall; [constructor|]. intros data. constructor.
Qed.

(** X24.  Whatever the stored configuration and whatever the transport
    answers, every request the generator sends is a POST whose body
    holds exactly two turns, the system instruction and then the user's
    prompt unchanged, with temperature 0.3, a limit of 150 tokens and
    the stop sequence of two line feeds. *)
Theorem generateCommand_requests_well_formed (st : Store) :
  Forall well_formed (fst (generate st)).
Proof.
  unfold generateCommand, findOne. destruct st as [settings|]; [|constructor].
  destruct (negb (enabled settings)); [constructor|].
  destruct (_ || _); [constructor|].
  apply tbind_Forall.
  - unfold first_dispatch.
    destruct (is_str (provider settings) "openai").
    { apply tbind_Forall; [apply generateOpenAICommand_well_formed|].
      intros; constructor. }
    destruct (is_str (provider settings) "openai_compatible").
    { apply tbind_Forall; [apply generateOllamaCommand_well_formed|].
      intros; constructor. }
    destruct (is_str (provider settings) "ollama"); [|constructor].
    apply tbind_Forall; [apply generateOllamaCommand_well_formed|].
    intros; constructor.
  - intros [c|early]; [|constructor].
    apply tbind_Forall; [|intros; constructor].
    unfold second_dispatch. destruct (is_str (provider settings) "ollama").
    + apply tbind_Forall; [constructor|]. intros _.
      apply generateOllamaCommand_well_formed.
    + apply tbind_Forall; [constructor|]. intros _.
      apply generateOpenAICommand_well_formed.
Qed.

End Generation.

End GeneratorMore.

Module GeneratorWitnesses.
Import JsString Js Http Store Registry Normalizer Generator.
Import Vocabulary Samples GeneratorMore.

Lemma generateCommand_rejects_before_sending_witness :
  exists message,
    generateCommand None plain_config answering (str "list files")
      (Some {| id := 1; enabled := true; provider := Some (str "anthropic");
               model := Some (str "opus"); apiKey := None; apiUrl := None |})
    = ([], Normal (GenError 400 message)).
Proof.
  apply (generateCommand_rejects_before_sending None plain_config answering
           (str "list files")).
  intros settings H _ _ _. injection H as <-. reflexivity.
Defined.

Lemma generateCommand_hosted_without_key_witness :
  generateCommand None plain_config answering (str "list files")
    (Some {| id := 1; enabled := true; provider := Some (str "openai");
             model := Some (str "gpt-4"); apiKey := Some []; apiUrl := None |})
  = ([], Throw (str "OpenAI API key not configured")).
Proof.
  apply (generateCommand_hosted_without_key None plain_config answering
           (str "list files")); reflexivity.
Defined.

Lemma generateCommand_transport_error_witness :
  generateCommand None plain_config refusing (str "list files") (Some local)
  = ([ first_request None plain_config (str "list files") local ],
     Throw (str "ECONNREFUSED")).
Proof.
  apply (generateCommand_transport_error None plain_config refusing
           (str "list files") local (str "ECONNREFUSED"));
    try reflexivity.
  discriminate.
Defined.



Lemma generateCommand_hosted_non_2xx_witness :
  generateCommand None plain_config unauthorized (str "list files")
    (Some hosted)
  = ([ hosted_request None plain_config (str "list files") hosted ],
     Throw (str "API error: Incorrect API key")).
Proof.
  apply (proj2 (generateCommand_hosted_non_2xx None plain_config unauthorized
                  (str "list files") hosted
                  {| ok := false; status := 401;
                     json := Normal {| data := None; models := None;
                                       choices := None; message := None;
                                       error := Some {| error_message :=
                                                 Some (str "Incorrect API key") |} |} |}
                  eq_refl eq_refl eq_refl eq_refl eq_refl eq_refl)
           {| data := None; models := None; choices := None; message := None;
              error := Some {| error_message := Some (str "Incorrect API key") |} |}
           (str "Incorrect API key"));
    try reflexivity.
  discriminate.
Defined.

Lemma generateCommand_local_non_2xx_witness :
  generateCommand None plain_config unavailable (str "list files") (Some local)
  = ([ local_request None plain_config (str "list files") local ],
     Throw (str "Ollama API error: 503")).
Proof.
  apply (generateCommand_local_non_2xx None plain_config unavailable
           (str "list files") local
           {| ok := false; status := 503;
              json := Throw (str "Unexpected end of JSON input") |});
    try reflexivity.
  left. reflexivity.
Defined.

End GeneratorWitnesses.

(** ** The address of the local chat request and malformed listings *)

Module EdgeCases.
Import JsString JsStringFacts Js Http Store Registry Normalizer Generator.
Import Prober ProberFacts Vocabulary Samples NormalizerMore.

Lemma dropEndWhile_no_trailing (f : codeunit -> bool) (s a : jsstring)
    (c : codeunit) :
  dropEndWhile f s = a ++ [c] -> f c = false.
Proof.
  intros E.
  assert (F : dropEndWhile f (a ++ [c]) = a ++ [c]).
  { rewrite <- E. now apply dropEndWhile_absorb. }
  destruct (dropEndWhile_fixed_tail f a [c] F) as (d & [<-|[]] & Hd);
    [discriminate | exact Hd].
Qed.

Lemma all_slashes (v : jsstring) :
  Forall (fun c => is_slash c = true) v -> v = repeat slash (List.length v).
Proof.
  induction 1 as [|c v Hc _ IH]; [reflexivity|].
  simpl. rewrite <- IH. f_equal. now apply N.eqb_eq.
Qed.

Lemma generateOllamaCommand_sent
    (AI_SYSTEM_PROMPT : option jsstring) (config : ProviderConfig)
    (fetch : Fetch) (prompt : jsstring) (settings : Settings) :
  fst (generateOllamaCommand AI_SYSTEM_PROMPT config fetch prompt settings)
  = [local_request AI_SYSTEM_PROMPT config prompt settings].
Proof.
  unfold generateOllamaCommand, send. cbv zeta.
  fold (local_request AI_SYSTEM_PROMPT config prompt settings).
  destruct (fetch _) as [response|e]; cbn [tbind]; [|reflexivity].
  destruct (negb (ok response)); [reflexivity|].
  unfold lift, ret. destruct (json response); reflexivity.
Qed.

(** X28.  [generateOllamaCommand] sends exactly one request, to
    [base/api/chat], where [base] is the configured base URL without its
    trailing slashes, however many there are, and
    [http://localhost:11434] when no base URL is configured. *)
Theorem generateOllamaCommand_address
    (AI_SYSTEM_PROMPT : option jsstring) (config : ProviderConfig)
    (fetch : Fetch) (prompt : jsstring) (settings : Settings) :
  exists base,
    map url
      (fst (generateOllamaCommand AI_SYSTEM_PROMPT config fetch prompt settings))
    = [base ++ str "/api/chat"]
    /\ (forall a, base <> a ++ [slash])
    /\ (truthy (apiUrl settings) = false -> base = str "http://localhost:11434")
    /\ (forall u, apiUrl settings = Some u -> u <> [] ->
          exists k, u = base ++ repeat slash k).
Proof.
  rewrite generateOllamaCommand_sent. unfold local_request. cbn [map url].
  eexists. split; [reflexivity|]. split; [|split].
  - intros a E. apply dropEndWhile_no_trailing in E. discriminate E.
  - intros ->. reflexivity.
  - intros u -> Hne.
    replace (truthy (Some u)) with true by now destruct u.
    cbn [show].
    destruct (dropEndWhile_prefix_all is_slash u) as (v & E & Hv).
    exists (List.length v). now rewrite <- (all_slashes v Hv).
Qed.

Lemma generateOllamaCommand_address_witness :
  exists base,
    map url (fst (generateOllamaCommand None plain_config refusing
                    (str "list files") local))
    = [base ++ str "/api/chat"]
    /\ (forall a, base <> a ++ [slash])
    /\ (truthy (apiUrl local) = false -> base = str "http://localhost:11434")
    /\ (forall u, apiUrl local = Some u -> u <> [] ->
          exists k, u = base ++ repeat slash k).
Proof.
  apply (generateOllamaCommand_address None plain_config refusing
           (str "list files") local).
Defined.

(** X14.  For the hosted and the compatible kinds, a 2xx listing whose
    decoded body has no [data] list makes the prober return a structured
    error with code 500 and a message that starts with "Connection test
    failed: "; it is not taken for a missing model. *)
Theorem testAIConnection_malformed_listing
    (fetch : Fetch) (settings : Settings) (m : jsstring)
    (response : Response) (body : Json) :
  enabled settings = true ->
  model settings = Some m ->
  m <> [] ->
  ready settings = true ->
  is_str (provider settings) "ollama" = false ->
  fetch (listing_request settings) = Normal response ->
  ok response = true ->
  json response = Normal body ->
  Http.data body = None ->
  exists detail,
    testAIConnection fetch (Some settings)
    = Normal (Failed 500 (str "Connection test failed: " ++ detail)).
Proof.
  intros He Hm Hne Hr Hp Hf Hok Hj Hd.
  rewrite (testAIConnection_ready fetch settings m He Hm Hne Hr).
  rewrite (probe_ready fetch settings Hr), Hf, Hok, Hj.
  unfold listed. rewrite Hp, Hd. simpl. eexists; reflexivity.
Qed.

Lemma testAIConnection_malformed_listing_witness :
  exists detail,
    testAIConnection (serving (completion "ls")) (Some compatible)
    = Normal (Failed 500 (str "Connection test failed: " ++ detail)).
Proof.
  apply (testAIConnection_malformed_listing (serving (completion "ls"))
           compatible (str "mistral")
           {| ok := true; status := 200; json := Normal (completion "ls") |}
           (completion "ls"));
    try reflexivity.
  discriminate.
Defined.

End EdgeCases.
